(** * monbot_crypto: the polling loop of [server.py]

    A shallow embedding of [server.py]: the reference-price getter
    [get_mon_usd_price], the market-data reader [fetch_price], the sell
    executor [sell_all_tcg] and the polling loop of [main].

    Conventions of the embedding.
    - Everything outside the process (the RPC endpoint, the two REST price
      feeds, the clock) is an abstract world [W] with one transition per
      call, class [Upstream]; a call returns a value or raises.
    - A Python function is a computation [M A]: it takes the store (world
      and the module-level [_mon_usd_cache]) and gives back a result, the
      new store and the events it produced, in program order.
    - uint256 values and Python [int]s are [Z] (Python integers do not
      wrap).  A Python [float] that carries a price or a USD figure is an
      IEEE 754 binary64 number, [pyfloat], with the Standard Library's
      specification of its operations.  A [Decimal] is the rational it
      denotes, and the rounding of the default context (28 significant
      digits, half to even) is written out where the code divides.  The
      clock is a rational number of seconds.
    - [print] produces an [EvPrint] event carrying the data of the line,
      not its text. *)

From Stdlib Require Import List ZArith QArith Qround String Bool Lia.
From Stdlib Require Import PrimFloat SpecFloat FloatOps.
Import ListNotations.

Local Open Scope Z_scope.

(** ** Numbers *)

(** A Python [float]: zero, infinity, NaN or [(-1)^s * m * 2^e]. *)
Definition pyfloat : Type := spec_float.

(** [x * y] on floats: the binary64 product, rounded to nearest even. *)
Definition float_mul (x y : pyfloat) : pyfloat := SFmul prec emax x y.

(** [float(d)] for a [Decimal] [d], and [float(text)] for a decimal
    numeral: the binary64 number nearest to the rational, ties to even.
    Numerator and denominator are integers, so the correctly rounded
    quotient of the two is that number. *)
Definition float_of_decimal (q : Q) : pyfloat :=
  match Qnum q with
  | 0 => S754_zero false
  | Zpos n =>
      SFdiv prec emax (S754_finite false n 0) (S754_finite false (Qden q) 0)
  | Zneg n =>
      SFdiv prec emax (S754_finite true n 0) (S754_finite false (Qden q) 0)
  end.

(** [float(n)] for an [int] (no [OverflowError] below [2**1024]). *)
Definition float_of_int (n : Z) : pyfloat := float_of_decimal (inject_Z n).

(** [x >= n] for a float [x] and an [int] [n] that a binary64 number
    holds exactly; false when [x] is NaN. *)
Definition float_ge_int (x : pyfloat) (n : Z) : bool :=
  SFleb (float_of_int n) x.

Definition is_zero (x : pyfloat) : bool :=
  match x with S754_zero _ => true | _ => false end.

Definition is_nan (x : pyfloat) : bool :=
  match x with S754_nan => true | _ => false end.

(** Neither infinite nor NaN. *)
Definition is_finite (x : pyfloat) : bool :=
  match x with S754_zero _ | S754_finite _ _ _ => true | _ => false end.

(** The default [decimal] context: [prec=28], [ROUND_HALF_EVEN]. *)
Definition DECIMAL_PREC : Z := 28.

(** [n / d] to the nearest integer, ties to even ([0 < d]). *)
Definition half_even (n d : Z) : Z :=
  let q := n / d in
  match 2 * (n mod d) ?= d with
  | Lt => q
  | Gt => q + 1
  | Eq => if Z.even q then q else q + 1
  end.

(** Number of decimal digits. *)
Definition digits10 (p : positive) : Z :=
  Z.of_nat (Decimal.nb_digits (Pos.to_uint p)).

Definition pow10 (k : Z) : Q :=
  if 0 <=? k then inject_Z (10 ^ k) else 1 # Z.to_pos (10 ^ (- k)).

(** [n / d] rounded to [DECIMAL_PREC] significant digits: the exponent
    [e] is the one that leaves [DECIMAL_PREC] digits before the point of
    [n / d / 10^e]. *)
Definition round_pos (n d : positive) : Q :=
  let q := Zpos n # d in
  let e0 := digits10 n - digits10 d - DECIMAL_PREC in
  let e :=
    if Qle_bool (pow10 DECIMAL_PREC) (q * pow10 (- e0)) then e0 + 1 else e0 in
  let x := (q * pow10 (- e))%Q in
  (inject_Z (half_even (Qnum x) (Zpos (Qden x))) * pow10 e)%Q.

(** What the context makes of the exact result of an operation. *)
Definition decimal_round (q : Q) : Q :=
  match Qnum q with
  | 0 => 0%Q
  | Zpos n => round_pos n (Qden q)
  | Zneg n => (- round_pos n (Qden q))%Q
  end.

(** ** Values *)

Definition address := string.
Definition exn := string.
Definition hash := Z.

Inductive result (A : Type) : Type :=
| Ok (a : A)
| Raise (e : exn).
Arguments Ok {A} a.
Arguments Raise {A} e.

Definition is_ok {A} (r : result A) : bool :=
  match r with Ok _ => true | Raise _ => false end.

(** The two contract calls the process signs and broadcasts. *)
Inductive tx_call : Type :=
| Approve (token spender : address) (amount : Z)
| Sell (router : address) (amountIn amountOutMin : Z)
       (token to : address) (deadline : Z).

Record transaction : Type := {
  tx_call_of : tx_call;
  tx_from : address;
  tx_nonce : Z;
  tx_chainId : Z;
  tx_gas : Z;
  tx_gasPrice : Z
}.

Definition is_sell_tx (t : transaction) : bool :=
  match tx_call_of t with Sell _ _ _ _ _ _ => true | Approve _ _ _ => false end.

Definition is_approve_tx (t : transaction) : bool :=
  match tx_call_of t with Approve _ _ _ => true | Sell _ _ _ _ _ _ => false end.

(** Lines written by [print]. *)
Inductive message : Type :=
| MsgConnected (block : Z)
| MsgWallet (wallet : address)
| MsgPriceWarn (last_known : pyfloat) (e : exn)
| MsgCycle (mon_usd : pyfloat)
| MsgToken (symbol : string) (market_cap_usd wallet_balance_usd : pyfloat)
| MsgTrigger (mcap : pyfloat)
| MsgAttemptFailed (attempt : Z) (e : exn)
| MsgAllFailed
| MsgTokenError (symbol : string) (e : exn)
| MsgBlank
| MsgBalanceZero
| MsgApproving (router : address) (balance : Z)
| MsgApproved (tx_hash : hash)
| MsgSelling (balance amount_out_min : Z)
| MsgSold (tx_hash : hash).

(** What a run does, in program order.  [EvInvokeSell] marks the entry of
    [sell_all_tcg]; every other event is a call that leaves the process. *)
Inductive event : Type :=
| EvInvokeSell
| EvBlockNumber (r : result Z)
| EvGetAmountOut (token : address) (amountIn : Z) (isBuy : bool)
                 (r : result (address * Z))
| EvTotalSupply (token : address) (r : result Z)
| EvBalanceOf (token account : address) (r : result Z)
| EvTxCount (account : address) (r : result Z)
| EvChainId (r : result Z)
| EvGasPrice (r : result Z)
| EvSend (tx : transaction) (r : result hash)
| EvWait (tx_hash : hash) (r : result unit)
| EvBinance (r : result pyfloat)
| EvCoinGecko (r : result pyfloat)
| EvSleep (seconds : Z)
| EvPrint (m : message).

(** ** The world outside the process *)

Class Upstream (W : Type) : Type := {
  (* w3.is_connected(), w3.eth.block_number *)
  w3_is_connected : W -> bool * W;
  eth_block_number : W -> result Z * W;
  (* lens.functions.getAmountOut(token, amountIn, isBuy).call() *)
  lens_getAmountOut : address -> Z -> bool -> W -> result (address * Z) * W;
  (* token.functions.totalSupply().call(), .balanceOf(account).call() *)
  erc20_totalSupply : address -> W -> result Z * W;
  erc20_balanceOf : address -> address -> W -> result Z * W;
  (* w3.eth.get_transaction_count, w3.eth.chain_id, w3.eth.gas_price *)
  eth_get_transaction_count : address -> W -> result Z * W;
  eth_chain_id : W -> result Z * W;
  eth_gas_price : W -> result Z * W;
  (* sign_transaction followed by w3.eth.send_raw_transaction *)
  eth_send_raw_transaction : transaction -> W -> result hash * W;
  eth_wait_for_transaction_receipt : hash -> W -> result unit * W;
  (* requests.get, raise_for_status and float(...) of the payload *)
  http_binance_price : W -> result pyfloat * W;
  http_coingecko_price : W -> result pyfloat * W;
  (* time.time(), time.sleep(seconds) *)
  time_time : W -> Q * W;
  time_sleep : Z -> W -> W
}.

(** ** Computations *)

Record store (W : Type) : Type := {
  world : W;
  mon_usd_cache : pyfloat * Q   (* _mon_usd_cache = (price, fetched_at) *)
}.
Arguments world {W} s.
Arguments mon_usd_cache {W} s.

Record outcome (W A : Type) : Type := {
  res : result A;
  st : store W;
  evs : list event
}.
Arguments res {W A} o.
Arguments st {W A} o.
Arguments evs {W A} o.

Definition M (W A : Type) : Type := store W -> outcome W A.

Definition ret {W A} (a : A) : M W A :=
  fun s => {| res := Ok a; st := s; evs := [] |}.

Definition raise {W A} (e : exn) : M W A :=
  fun s => {| res := Raise e; st := s; evs := [] |}.

Definition bind {W A B} (m : M W A) (k : A -> M W B) : M W B :=
  fun s =>
    let o := m s in
    match res o with
    | Ok a =>
        let o' := k a (st o) in
        {| res := res o'; st := st o'; evs := evs o ++ evs o' |}
    | Raise e => {| res := Raise e; st := st o; evs := evs o |}
    end.

(** [try: ... except Exception as e: ...] reifies the outcome of the body. *)
Definition try_except {W A} (m : M W A) : M W (result A) :=
  fun s =>
    let o := m s in
    {| res := Ok (res o); st := st o; evs := evs o |}.

Declare Scope prog_scope.
Delimit Scope prog_scope with prog.
Notation "x <- m ;; k" := (bind m (fun x => k))
  (at level 61, m at next level, right associativity) : prog_scope.
Notation "' p <- m ;; k" := (bind m (fun x => let p := x in k))
  (at level 61, p pattern, m at next level, right associativity) : prog_scope.
Notation "m ;; k" := (bind m (fun _ => k))
  (at level 61, right associativity) : prog_scope.
Local Open Scope prog_scope.

(** A call into the world that can raise, with the event it leaves. *)
Definition call {W A} (f : W -> result A * W) (ev : result A -> event)
  : M W A :=
  fun s =>
    let rw := f (world s) in
    {| res := fst rw;
       st := {| world := snd rw; mon_usd_cache := mon_usd_cache s |};
       evs := [ev (fst rw)] |}.

Definition emit {W} (e : event) : M W unit :=
  fun s => {| res := Ok tt; st := s; evs := [e] |}.

Definition print {W} (m : message) : M W unit := emit (EvPrint m).

(** An operation of the process itself that can raise. *)
Definition of_result {W A} (r : result A) : M W A :=
  fun s => {| res := r; st := s; evs := [] |}.

(** ** Config *)

Definition POLL_INTERVAL : Z := 7.
Definition TCG_SELL_AT : Z := 900000.
Definition MON_PRICE_TTL : Q := 60 # 1.
Definition ONE_MON : Z := 10 ^ 18.   (* Web3.to_wei(1, "ether") *)

Definition TOKENS : list (string * address) :=
  [ ("TCG",  "0x94CF69B5b13E621cB11f5153724AFb58c7337777");
    ("FIRE", "0xCE1C9994331e1fd8E3B751De9Cf50c322BCb7777");
    ("MONA", "0x2CB31c268819EE133De378A3A2E087F0b0eC7777") ]%string.

(** [TOKENS[key]]: a missing key raises [KeyError]. *)
Fixpoint tokens_get (d : list (string * address)) (key : string)
  : option address :=
  match d with
  | [] => None
  | (k, v) :: d' => if String.eqb k key then Some v else tokens_get d' key
  end.

(** [Web3.to_checksum_address] only changes the letter case of a
    well-formed address; addresses are kept as configured. *)
Definition to_checksum_address (a : address) : address := a.

(** [Web3.from_wei(n, "ether")]: [n / 10**18], exactly (the library
    divides at 999 digits); for [n = 0] it returns the integer 0.  Its
    range check cannot fire on a decoded uint256 and is left out. *)
Definition from_wei (n : Z) : Q := (inject_Z n / inject_Z (10 ^ 18))%Q.

(** Python truth value of a number. *)
Definition truthy (q : Q) : bool := negb (Qeq_bool q 0).

(** [a / b] with a [Decimal] operand, in the default context: a zero
    divisor raises (the context traps [decimal.DivisionByZero], the signal
    for a nonzero dividend, which is the only case in this program), any
    other quotient is rounded to the precision of the context. *)
Definition decimal_div (a b : Q) : result Q :=
  if Qeq_bool b 0 then Raise "[<class 'decimal.DivisionByZero'>]"%string
  else Ok (decimal_round (a / b)).

Definition Qlt_bool (a b : Q) : bool := negb (Qle_bool b a).

(** [int(x)] on a float: truncation towards zero. *)
Definition int_of_float (x : Q) : Z :=
  if Qle_bool 0 x then Qfloor x else Qceiling x.

Section Program.

Context {W : Type} {U : Upstream W}.

(** The account address derived from [PRIVATE_KEY]. *)
Variable WALLET : address.

Definition get_cache : M W (pyfloat * Q) :=
  fun s => {| res := Ok (mon_usd_cache s); st := s; evs := [] |}.

Definition set_cache (c : pyfloat * Q) : M W unit :=
  fun s => {| res := Ok tt;
              st := {| world := world s; mon_usd_cache := c |};
              evs := [] |}.

Definition time_now : M W Q :=
  fun s =>
    let tw := time_time (world s) in
    {| res := Ok (fst tw);
       st := {| world := snd tw; mon_usd_cache := mon_usd_cache s |};
       evs := [] |}.

Definition sleep (seconds : Z) : M W unit :=
  fun s =>
    {| res := Ok tt;
       st := {| world := time_sleep seconds (world s);
                mon_usd_cache := mon_usd_cache s |};
       evs := [EvSleep seconds] |}.

(** *** get_mon_usd_price *)

Definition get_mon_usd_price : M W pyfloat :=
  c <- get_cache ;;
  let price := fst c in
  let fetched_at := snd c in
  t <- time_now ;;
  if Qlt_bool (t - fetched_at) MON_PRICE_TTL then ret price
  else
    (* Try Binance first *)
    r <- try_except (price <- call http_binance_price EvBinance ;;
              t' <- time_now ;;
              set_cache (price, t') ;;
              ret price) ;;
    match r with
    | Ok price => ret price
    | Raise _ =>
        (* Fall back to CoinGecko *)
        price <- call http_coingecko_price EvCoinGecko ;;
        t' <- time_now ;;
        set_cache (price, t') ;;
        ret price
    end.

(** *** fetch_price *)

Definition fetch_price (symbol : string) (token_address : address)
  (mon_usd : pyfloat) : M W pyfloat :=
  let checksum := to_checksum_address token_address in
  quote <- call (lens_getAmountOut checksum ONE_MON true)
                (EvGetAmountOut checksum ONE_MON true) ;;
  let amount_out := snd quote in
  let tokens_per_mon := from_wei amount_out in
  mon_per_token <- of_result (if truthy tokens_per_mon
                              then decimal_div 1 tokens_per_mon
                              else Ok 0%Q) ;;
  total_supply_raw <- call (erc20_totalSupply checksum)
                           (EvTotalSupply checksum) ;;
  let total_supply := from_wei total_supply_raw in
  let market_cap_usd :=
    float_mul (float_mul (float_of_decimal mon_per_token)
                         (float_of_decimal total_supply)) mon_usd in
  balance_raw <- call (erc20_balanceOf checksum WALLET)
                      (EvBalanceOf checksum WALLET) ;;
  let wallet_balance := from_wei balance_raw in
  let wallet_balance_usd :=
    float_mul (float_mul (float_of_decimal wallet_balance)
                         (float_of_decimal mon_per_token)) mon_usd in
  print (MsgToken symbol market_cap_usd wallet_balance_usd) ;;
  ret market_cap_usd.

(** *** sell_all_tcg *)

Definition sell_all_tcg : M W unit :=
  emit EvInvokeSell ;;
  match tokens_get TOKENS "TCG"%string with
  | None => raise "KeyError: 'TCG'"%string
  | Some tcg =>
  let tcg_address := to_checksum_address tcg in
  balance <- call (erc20_balanceOf tcg_address WALLET)
                  (EvBalanceOf tcg_address WALLET) ;;
  if balance =? 0 then
    print MsgBalanceZero ;;
    ret tt
  else
    (* Get sell quote *)
    quote <- call (lens_getAmountOut tcg_address balance false)
                  (EvGetAmountOut tcg_address balance false) ;;
    let router_address := fst quote in
    let mon_out := snd quote in
    let amount_out_min := mon_out * 95 / 100 in   (* 5% slippage tolerance *)
    chain_id <- call eth_chain_id EvChainId ;;
    t <- time_now ;;
    let deadline := int_of_float t + 300 in
    (* 1) Approve router to spend TCG *)
    print (MsgApproving router_address balance) ;;
    nonce <- call (eth_get_transaction_count WALLET) (EvTxCount WALLET) ;;
    gas_price <- call eth_gas_price EvGasPrice ;;
    let approve_tx :=
      {| tx_call_of := Approve tcg_address router_address balance;
         tx_from := WALLET; tx_nonce := nonce; tx_chainId := chain_id;
         tx_gas := 100000; tx_gasPrice := gas_price |} in
    tx_hash <- call (eth_send_raw_transaction approve_tx)
                    (EvSend approve_tx) ;;
    call (eth_wait_for_transaction_receipt tx_hash) (EvWait tx_hash) ;;
    print (MsgApproved tx_hash) ;;
    (* 2) Sell (re-fetch nonce after approve is mined) *)
    print (MsgSelling balance amount_out_min) ;;
    nonce <- call (eth_get_transaction_count WALLET) (EvTxCount WALLET) ;;
    gas_price <- call eth_gas_price EvGasPrice ;;
    let sell_tx :=
      {| tx_call_of := Sell (to_checksum_address router_address)
                            balance amount_out_min tcg_address WALLET
                            deadline;
         tx_from := WALLET; tx_nonce := nonce; tx_chainId := chain_id;
         tx_gas := 200000; tx_gasPrice := gas_price |} in
    tx_hash <- call (eth_send_raw_transaction sell_tx) (EvSend sell_tx) ;;
    call (eth_wait_for_transaction_receipt tx_hash) (EvWait tx_hash) ;;
    print (MsgSold tx_hash) ;;
    ret tt
  end.

(** *** main *)

(** The local variables of [main] that live across poll cycles. *)
Record locals : Type := {
  tcg_sold : bool;
  mon_usd : pyfloat
}.

(** [for attempt in range(1, 4)]: [attempts] is what is left of the
    range.  A normal return of [sell_all_tcg] sets [tcg_sold] and breaks. *)
Fixpoint sell_attempts (attempts : list Z) (sold : bool) : M W bool :=
  match attempts with
  | [] => ret sold
  | attempt :: rest =>
      r <- try_except sell_all_tcg ;;
      match r with
      | Ok _ => ret true
      | Raise sell_exc =>
          print (MsgAttemptFailed attempt sell_exc) ;;
          (if attempt <? 3 then sleep 3 else ret tt) ;;
          sell_attempts rest sold
      end
  end.

(** The body of [for symbol, address in TOKENS.items()]. *)
Definition per_token (symbol : string) (addr : address) (mon : pyfloat)
  (sold : bool) : M W bool :=
  r <- try_except
         (mcap <- fetch_price symbol addr mon ;;
          if String.eqb symbol "TCG"%string && negb sold
             && float_ge_int mcap TCG_SELL_AT
          then
            print (MsgTrigger mcap) ;;
            sold' <- sell_attempts [1; 2; 3] sold ;;
            (if negb sold' then print MsgAllFailed else ret tt) ;;
            ret sold'
          else ret sold) ;;
  match r with
  | Ok sold' => ret sold'
  | Raise exc => print (MsgTokenError symbol exc) ;; ret sold
  end.

Fixpoint for_tokens (items : list (string * address)) (mon : pyfloat)
  (sold : bool) : M W bool :=
  match items with
  | [] => ret sold
  | (symbol, addr) :: items' =>
      sold' <- per_token symbol addr mon sold ;;
      for_tokens items' mon sold'
  end.

(** The head of the loop body: [mon_usd] is overwritten only when the
    getter returns. *)
Definition refresh_price (l : locals) : M W pyfloat :=
  r <- try_except get_mon_usd_price ;;
  match r with
  | Ok p => ret p
  | Raise exc => print (MsgPriceWarn (mon_usd l) exc) ;; ret (mon_usd l)
  end.

(** One iteration of [while True]. *)
Definition cycle (l : locals) : M W locals :=
  mon <- refresh_price l ;;
  print (MsgCycle mon) ;;
  sold <- for_tokens TOKENS mon (tcg_sold l) ;;
  print MsgBlank ;;
  sleep POLL_INTERVAL ;;
  ret {| tcg_sold := sold; mon_usd := mon |}.

(** The first [n] iterations of [while True]. *)
Fixpoint poll (n : nat) (l : locals) : M W locals :=
  match n with
  | O => ret l
  | S n' => l' <- cycle l ;; poll n' l'
  end.

Definition initial_locals : locals :=
  {| tcg_sold := false; mon_usd := S754_zero false |}.

(** [main], cut after [n] poll cycles. *)
Definition main (n : nat) : M W locals :=
  fun s =>
    let cw := w3_is_connected (world s) in
    let s1 := {| world := snd cw; mon_usd_cache := mon_usd_cache s |} in
    if fst cw then
      (block <- call eth_block_number EvBlockNumber ;;
       print (MsgConnected block) ;;
       print (MsgWallet WALLET) ;;
       poll n initial_locals) s1
    else raise "Cannot connect to RPC"%string s1.

End Program.

(** ** The arithmetic of line 150 on its own

    [float(1 / tokens_per_mon) * float(total_supply) * mon_usd] for a
    nonzero quote, evaluated from left to right. *)
Definition market_cap_of (amount_out total_supply_raw : Z)
  (mon_usd : pyfloat) : pyfloat :=
  float_mul
    (float_mul (float_of_decimal (decimal_round (1 / from_wei amount_out)))
               (float_of_decimal (from_wei total_supply_raw)))
    mon_usd.

(** The same on the doubles of the machine. *)
Definition market_cap_binary64 (mon_per_token total_supply mon_usd : float)
  : float :=
  (mon_per_token * total_supply * mon_usd)%float.

(** ** A scripted world

    The replies of the world, in the order the process asks for them; the
    clock is separate and only [time.sleep] moves it.  A reply of the wrong
    kind, or none left, makes the call raise. *)

Inductive reply : Type :=
| RBool (b : bool)
| RNum (r : result Z)
| RQuote (r : result (address * Z))
| RHash (r : result hash)
| RDone (r : result unit)
| RPrice (r : result pyfloat).

Record script : Type := {
  clock : Q;
  replies : list reply
}.

Definition off_script {A} : result A := Raise "off script"%string.

Definition next_reply {A} (pick : reply -> result A) (w : script)
  : result A * script :=
  match replies w with
  | [] => (off_script, w)
  | r :: rs => (pick r, {| clock := clock w; replies := rs |})
  end.

Definition pick_num (r : reply) : result Z :=
  match r with RNum x => x | _ => off_script end.
Definition pick_quote (r : reply) : result (address * Z) :=
  match r with RQuote x => x | _ => off_script end.
Definition pick_hash (r : reply) : result hash :=
  match r with RHash x => x | _ => off_script end.
Definition pick_done (r : reply) : result unit :=
  match r with RDone x => x | _ => off_script end.
Definition pick_price (r : reply) : result pyfloat :=
  match r with RPrice x => x | _ => off_script end.

#[export] Instance script_upstream : Upstream script := {
  w3_is_connected w :=
    match replies w with
    | RBool b :: rs => (b, {| clock := clock w; replies := rs |})
    | _ => (false, w)
    end;
  eth_block_number := next_reply pick_num;
  lens_getAmountOut _ _ _ := next_reply pick_quote;
  erc20_totalSupply _ := next_reply pick_num;
  erc20_balanceOf _ _ := next_reply pick_num;
  eth_get_transaction_count _ := next_reply pick_num;
  eth_chain_id := next_reply pick_num;
  eth_gas_price := next_reply pick_num;
  eth_send_raw_transaction _ := next_reply pick_hash;
  eth_wait_for_transaction_receipt _ := next_reply pick_done;
  http_binance_price := next_reply pick_price;
  http_coingecko_price := next_reply pick_price;
  time_time w := (clock w, w);
  time_sleep seconds w :=
    {| clock := (clock w + inject_Z seconds)%Q; replies := replies w |}
}.

Definition scripted (t : Q) (cache : pyfloat * Q) (rs : list reply)
  : store script :=
  {| world := {| clock := t; replies := rs |}; mon_usd_cache := cache |}.

(** ** Reading a run *)

(** Entries of [sell_all_tcg] in a run. *)
Fixpoint invocations (l : list event) : nat :=
  match l with
  | [] => O
  | EvInvokeSell :: l' => S (invocations l')
  | _ :: l' => invocations l'
  end.

(** Transactions the run handed to [send_raw_transaction]. *)
Fixpoint submitted (l : list event) : list transaction :=
  match l with
  | [] => []
  | EvSend tx _ :: l' => tx :: submitted l'
  | _ :: l' => submitted l'
  end.

(** Tokens whose market snapshot the run started to read: the probe buy
    quote is the first call of [fetch_price]. *)
Fixpoint snapshot_reads (l : list event) : list address :=
  match l with
  | [] => []
  | EvGetAmountOut token _ true _ :: l' => token :: snapshot_reads l'
  | _ :: l' => snapshot_reads l'
  end.

(** The retry skeleton of a run: entries of the sell executor, failed
    attempts as [main] reports them, and sleeps. *)
Inductive ctrl : Type :=
| Invoke
| Failed (attempt : Z)
| Slept (seconds : Z).

Definition ctrl_of (e : event) : option ctrl :=
  match e with
  | EvInvokeSell => Some Invoke
  | EvPrint (MsgAttemptFailed attempt _) => Some (Failed attempt)
  | EvSleep seconds => Some (Slept seconds)
  | _ => None
  end.

Fixpoint skeleton (l : list event) : list ctrl :=
  match l with
  | [] => []
  | e :: l' =>
      match ctrl_of e with
      | Some c => c :: skeleton l'
      | None => skeleton l'
      end
  end.

Definition is_sell_activity (e : event) : bool :=
  match e with
  | EvInvokeSell | EvSend _ _ => true
  | _ => false
  end.

Definition is_snapshot_read (e : event) : bool :=
  match e with
  | EvGetAmountOut _ _ true _ => true
  | _ => false
  end.

Definition is_ctrl (e : event) : bool :=
  match ctrl_of e with Some _ => true | None => false end.

Definition is_invoke (c : ctrl) : bool :=
  match c with Invoke => true | _ => false end.

Definition no_sell_activity (e : event) : bool := negb (is_sell_activity e).
Definition no_ctrl (e : event) : bool := negb (is_ctrl e).
Definition no_snapshot_read (e : event) : bool := negb (is_snapshot_read e).

(** The address [TOKENS["TCG"]]. *)
Definition tcg_address : address :=
  "0x94CF69B5b13E621cB11f5153724AFb58c7337777"%string.

Section Vocabulary.

Context {W : Type} {U : Upstream W}.

(** [l], then the run [o]. *)
Definition prepend {A} (l : list event) (o : outcome W A) : outcome W A :=
  {| res := res o; st := st o; evs := l ++ evs o |}.

(** Every event of every run of [m] satisfies [p]. *)
Definition emits {A} (p : event -> bool) (m : M W A) : Prop :=
  forall s, forallb p (evs (m s)) = true.

(** Whether the getter, entered in [s], takes the cached price: the
    test [time.time() - fetched_at < MON_PRICE_TTL]. *)
Definition cache_is_fresh (s : store W) : bool :=
  Qlt_bool (fst (time_time (world s)) - snd (mon_usd_cache s)) MON_PRICE_TTL.

(** What Binance answers if the getter, entered in [s], asks it, and what
    CoinGecko answers if it is asked after that. *)
Definition primary_reply (s : store W) : result pyfloat * W :=
  http_binance_price (snd (time_time (world s))).

Definition secondary_reply (s : store W) : result pyfloat * W :=
  http_coingecko_price (snd (primary_reply s)).

(** The store once [time.sleep(seconds)] has returned. *)
Definition after_sleep (seconds : Z) (s : store W) : store W :=
  {| world := time_sleep seconds (world s);
     mon_usd_cache := mon_usd_cache s |}.

(** A poll cycle up to and including the market-data read of TCG: its
    result is the market cap the trigger is evaluated on, its store the one
    the sell attempts start from. *)
Definition tcg_snapshot (WALLET : address) (l : locals) : M W pyfloat :=
  mon <- refresh_price l ;;
  print (MsgCycle mon) ;;
  fetch_price WALLET "TCG" tcg_address mon.

(** The unit price [fetch_price] goes on with after a probe quote of
    [amount_out]: the guarded reciprocal, once it has returned. *)
Definition unit_price (amount_out : Z) : Q :=
  if truthy (from_wei amount_out)
  then decimal_round (1 / from_wei amount_out)
  else 0%Q.

(** The test of [main] on a snapshot of [symbol]. *)
Definition trigger (symbol : string) (sold : bool) (mcap : pyfloat) : bool :=
  String.eqb symbol "TCG" && negb sold && float_ge_int mcap TCG_SELL_AT.

Definition fire_address : address :=
  "0xCE1C9994331e1fd8E3B751De9Cf50c322BCb7777"%string.

Definition mona_address : address :=
  "0x2CB31c268819EE133De378A3A2E087F0b0eC7777"%string.

(** The line [sell_all_tcg] prints last before it returns normally. *)
Definition sell_completed (e : event) : bool :=
  match e with
  | EvPrint (MsgSold _) | EvPrint MsgBalanceZero => true
  | _ => false
  end.

Definition pending (e : event) : bool := negb (sell_completed e).

(** Events outside the sell executor and the retry loop. *)
Definition bystander (e : event) : bool :=
  no_sell_activity e && no_ctrl e && pending e.

(** In a run, nothing of the sell executor follows a completed sell. *)
Fixpoint settled (l : list event) : bool :=
  match l with
  | [] => true
  | e :: l' =>
      if sell_completed e then forallb no_sell_activity l' else settled l'
  end.

(** What a cycle in which the trigger fired can look like, by the flag
    it ends with and its retry skeleton (the last sleep is the poll
    interval). *)
Definition retry_outcome (sold : bool) (sk : list ctrl) : Prop :=
  sold = true /\
  (sk = [Invoke; Slept 7] \/
   sk = [Invoke; Failed 1; Slept 3; Invoke; Slept 7] \/
   sk = [Invoke; Failed 1; Slept 3; Invoke; Failed 2; Slept 3; Invoke;
         Slept 7]) \/
  sold = false /\
  sk = [Invoke; Failed 1; Slept 3; Invoke; Failed 2; Slept 3; Invoke;
        Failed 3; Slept 7].

(** The retry policy as the spec words it, told from what the successive
    runs of the sell executor do: up to three runs, the next one 3 seconds
    after a run that raised, none after a run that returned.  It gives the
    events of the attempts and whether one of them returned (Sold). *)
Definition retry_policy (WALLET : address) (s : store W)
  : list event * bool :=
  let first := sell_all_tcg WALLET s in
  match res first with
  | Ok _ => (evs first, true)
  | Raise e1 =>
      let second := sell_all_tcg WALLET (after_sleep 3 (st first)) in
      match res second with
      | Ok _ =>
          (evs first ++ [EvPrint (MsgAttemptFailed 1 e1); EvSleep 3] ++
           evs second, true)
      | Raise e2 =>
          let third := sell_all_tcg WALLET (after_sleep 3 (st second)) in
          match res third with
          | Ok _ =>
              (evs first ++ [EvPrint (MsgAttemptFailed 1 e1); EvSleep 3] ++
               evs second ++ [EvPrint (MsgAttemptFailed 2 e2); EvSleep 3] ++
               evs third, true)
          | Raise e3 =>
              (evs first ++ [EvPrint (MsgAttemptFailed 1 e1); EvSleep 3] ++
               evs second ++ [EvPrint (MsgAttemptFailed 2 e2); EvSleep 3] ++
               evs third ++ [EvPrint (MsgAttemptFailed 3 e3)], false)
          end
      end
  end.

End Vocabulary.

(** ** Failed calls in a run *)

(** The exception a call left in its event, if it raised. *)
Definition failure_of (e : event) : option exn :=
  match e with
  | EvBlockNumber (Raise x)
  | EvGetAmountOut _ _ _ (Raise x)
  | EvTotalSupply _ (Raise x)
  | EvBalanceOf _ _ (Raise x)
  | EvTxCount _ (Raise x)
  | EvChainId (Raise x)
  | EvGasPrice (Raise x)
  | EvSend _ (Raise x)
  | EvWait _ (Raise x)
  | EvBinance (Raise x)
  | EvCoinGecko (Raise x) => Some x
  | _ => None
  end.

(** How a run without handlers must have ended, read off its events:
    [Some None] if no call failed, [Some (Some x)] if its last event is a
    call that failed with [x] and no earlier call failed, [None] if
    anything follows a failed call. *)
Fixpoint verdict (l : list event) : option (option exn) :=
  match l with
  | [] => Some None
  | e :: l' =>
      match failure_of e with
      | Some x => match l' with [] => Some (Some x) | _ :: _ => None end
      | None => verdict l'
      end
  end.

Definition error_of {A} (r : result A) : option exn :=
  match r with Ok _ => None | Raise x => Some x end.

Definition is_print (e : event) : bool :=
  match e with EvPrint _ => true | _ => false end.

(** ** More words for the getter and the cycle *)

Section Vocabulary_more.

Context {W : Type} {U : Upstream W}.

(** The world right after the reply the getter takes its price from:
    Binance's if it answered, else CoinGecko's. *)
Definition reply_world (s : store W) : W :=
  if is_ok (fst (primary_reply s)) then snd (primary_reply s)
  else snd (secondary_reply s).

(** In the cycle entered with [l] in [s], TCG is unsold and its market cap
    is read and meets the threshold. *)
Definition trigger_fires (WALLET : address) (l : locals) (s : store W)
  : Prop :=
  tcg_sold l = false /\
  exists mcap, res (tcg_snapshot WALLET l s) = Ok mcap /\
               float_ge_int mcap TCG_SELL_AT = true.

(** The locals and the store after the first [k] cycles of a run. *)
Definition after_cycles (WALLET : address) (k : nat) (l : locals)
  (s : store W) : locals * store W :=
  let o := poll WALLET k l s in
  (match res o with Ok l' => l' | Raise _ => l end, st o).

End Vocabulary_more.

(** ** Scripted runs *)

Definition wallet : address :=
  "0x00000000000000000000000000000000000000AA"%string.

Definition router_a : address :=
  "0x00000000000000000000000000000000000000BB"%string.

Definition units (n : Z) : Z := n * 10 ^ 18.

(** [_mon_usd_cache] as the module sets it: [(0.0, 0.0)]. *)
Definition cold_cache : pyfloat * Q := (S754_zero false, 0 # 1).

(** The price the feeds give in the scenario of the spec: the text
    ["125.40"] as [float] reads it. *)
Definition usd_125_40 : pyfloat := float_of_decimal (1254 # 10).

(** A market-data read that succeeds: probe quote, total supply, wallet
    balance, in token units. *)
Definition read_ok (quote supply balance : Z) : list reply :=
  [RQuote (Ok (router_a, units quote)); RNum (Ok (units supply));
   RNum (Ok (units balance))].

(** A sell that goes through: balance (raw), quoted MON out (raw), chain id,
    the transaction count before the approval and after it, the two hashes. *)
Definition sell_ok (balance mon_out n0 n : Z) (h1 h2 : hash) : list reply :=
  [RNum (Ok balance); RQuote (Ok (router_a, mon_out)); RNum (Ok 143);
   RNum (Ok n0); RNum (Ok 50); RHash (Ok h1); RDone (Ok tt);
   RNum (Ok n); RNum (Ok 50); RHash (Ok h2); RDone (Ok tt)].

(** One MON buys one TCG, 10,000 TCG exist, MON is at 125.40 USD: the
    market cap is 1,254,000 USD, above the trigger. *)
Definition tcg_above : list reply := read_ok 1 10000 5.

(** The scenario of the spec: 1000 tokens per MON, 1,000,000 tokens. *)
Definition tcg_below : list reply := read_ok 1000 1000000 0.

Definition others_ok : list reply := read_ok 2 1000 0 ++ read_ok 3 1000 0.

(** Cold cache, clock at 2000 s.  Cycle 1: Binance answers, TCG is above
    the trigger and the sell goes through at once.  Cycle 2: TCG is still
    above the trigger and the wallet holds TCG again. *)
Definition sale_then_high_cap : store script :=
  scripted (2000 # 1) cold_cache
    ([RPrice (Ok usd_125_40)] ++ tcg_above ++
     sell_ok (units 5) (units 4) 7 8 1001 1002 ++ others_ok ++
     tcg_above ++ others_ok).

(** The retry scenario: the first attempt fails at the balance read, the
    second at the sell quote, the third goes through. *)
Definition two_failures_then_sale : store script :=
  scripted (2000 # 1) cold_cache
    ([RPrice (Ok usd_125_40)] ++ tcg_above ++
     [RNum (Raise "rpc timeout"%string)] ++
     [RNum (Ok (units 5)); RQuote (Raise "execution reverted"%string)] ++
     sell_ok (units 5) (units 4) 7 8 1001 1002 ++ others_ok).

(** Three failed attempts, then a second cycle above the trigger in
    which the sell goes through. *)
Definition three_failures_then_retry : store script :=
  scripted (2000 # 1) cold_cache
    ([RPrice (Ok usd_125_40)] ++ tcg_above ++
     [RNum (Raise "rpc timeout"%string);
      RNum (Raise "rpc timeout"%string);
      RNum (Raise "rpc timeout"%string)] ++ others_ok ++
     tcg_above ++ sell_ok (units 5) (units 4) 7 8 1001 1002 ++ others_ok).

(** The sell executor alone, entered with a balance of 5 TCG. *)
Definition plain_sale : store script :=
  scripted (2000 # 1) cold_cache (sell_ok (units 5) 777 7 8 1001 1002).

(** The sell executor alone, entered with an empty wallet. *)
Definition empty_wallet : store script :=
  scripted (2000 # 1) cold_cache [RNum (Ok 0)].

(** TCG above the trigger with an empty wallet; in the next cycle it is
    above the trigger again and the wallet holds 5 TCG. *)
Definition trigger_on_empty_wallet : store script :=
  scripted (2000 # 1) cold_cache
    ([RPrice (Ok usd_125_40)] ++ read_ok 1 10000 0 ++ [RNum (Ok 0)] ++
     others_ok ++ tcg_above ++ others_ok).


Definition zero_quote_read : store script :=
  scripted (2000 # 1) (usd_125_40, 2000 # 1)
    [RQuote (Ok (router_a, 0)); RNum (Ok (units 1000)); RNum (Ok (units 5))].

(** A cycle on a cold cache in which Binance answers ["inf"] and the lens
    quotes zero TCG for the probe. *)
Definition zero_quote_infinite_price : store script :=
  scripted (2000 # 1) cold_cache
    ([RPrice (Ok (S754_infinity false));
      RQuote (Ok (router_a, 0)); RNum (Ok (units 1000)); RNum (Ok (units 5))] ++
     others_ok).

(** A cycle in which the read of TCG fails and the two others succeed. *)
Definition tcg_read_fails : store script :=
  scripted (2000 # 1) (usd_125_40, 1990 # 1)
    ([RQuote (Raise "lens unreachable"%string)] ++ others_ok).

(** The getter on a cold cache with Binance up; 61 seconds later both
    sources are down. *)
Definition feeds_go_down : store script :=
  scripted (1000 # 1) cold_cache
    [RPrice (Ok usd_125_40);
     RPrice (Raise "binance: 503"%string);
     RPrice (Raise "coingecko: 429"%string)].

(** The getter on a cold cache with both sources down. *)
Definition feeds_down_cold : store script :=
  scripted (1000 # 1) cold_cache
    [RPrice (Raise "binance: 503"%string);
     RPrice (Raise "coingecko: 429"%string)].

(** The value a computation returned, [d] if it raised. *)
Definition returned {A} (d : A) (o : outcome script A) : A :=
  match res o with Ok a => a | Raise _ => d end.

(** The locals of [main] after the sale of [sale_then_high_cap]. *)
Definition sold_at_125_40 : locals :=
  {| tcg_sold := true; mon_usd := usd_125_40 |}.

(** The market cap of TCG read in the first cycle of a scripted run. *)
Definition first_tcg_cap (s : store script) : pyfloat :=
  returned (S754_zero false) (tcg_snapshot wallet initial_locals s).

(** The sell transaction of [plain_sale]. *)
Definition plain_sale_tx : transaction :=
  {| tx_call_of := Sell router_a (units 5) 738 tcg_address wallet 2300;
     tx_from := wallet; tx_nonce := 8; tx_chainId := 143;
     tx_gas := 200000; tx_gasPrice := 50 |}.

(** No connection at start-up. *)
Definition disconnected : store script :=
  scripted (2000 # 1) cold_cache [RBool false].

(** Both feeds down on the first cycle while TCG reads as in
    [tcg_above]. *)
Definition no_price_yet : store script :=
  scripted (2000 # 1) cold_cache
    ([RPrice (Raise "binance: 503"%string);
      RPrice (Raise "coingecko: 429"%string)] ++ tcg_above ++ others_ok).

(** The sell executor alone, with a lens that rejects the sell quote. *)
Definition quote_fails : store script :=
  scripted (2000 # 1) cold_cache
    [RNum (Ok (units 5)); RQuote (Raise "execution reverted"%string)].

(** The approval of [plain_sale]. *)
Definition plain_approve_tx : transaction :=
  {| tx_call_of := Approve tcg_address router_a (units 5);
     tx_from := wallet; tx_nonce := 7; tx_chainId := 143;
     tx_gas := 100000; tx_gasPrice := 50 |}.

(** Two cycles with TCG below the trigger. *)
Definition two_calm_cycles : store script :=
  scripted (2000 # 1) cold_cache
    ([RPrice (Ok usd_125_40)] ++ tcg_below ++ others_ok ++
     tcg_below ++ others_ok).



(** * Facts *)

Section Facts.

Context {W : Type} {U : Upstream W}.
Variable WALLET : address.

(** ** Numbers *)

(** Binary digits of a mantissa. *)
Lemma digits2_pos_bounds p :
  2 ^ (Zpos (digits2_pos p) - 1) <= Zpos p < 2 ^ Zpos (digits2_pos p).
Proof.
  induction p as [p IH|p IH|]; cbn [digits2_pos].
  - rewrite Pos2Z.inj_succ.
    replace (Z.succ (Zpos (digits2_pos p)) - 1) with (Z.succ (Zpos (digits2_pos p) - 1)) by lia.
    rewrite !Z.pow_succ_r by lia. lia.
  - rewrite Pos2Z.inj_succ.
    replace (Z.succ (Zpos (digits2_pos p)) - 1) with (Z.succ (Zpos (digits2_pos p) - 1)) by lia.
    rewrite !Z.pow_succ_r by lia. lia.
  - cbn. lia.
Qed.

Lemma Zdigits2_nonneg m : 0 <= Zdigits2 m.
Proof. destruct m; cbn; lia. Qed.

Lemma Zdigits2_le m k : 0 <= m < 2 ^ k -> 0 <= k -> Zdigits2 m <= k.
Proof.
  intros [H0 H] Hk. destruct m as [|p|p]; cbn [Zdigits2]; [lia| |lia].
  pose proof (digits2_pos_bounds p) as [L _].
  destruct (Z.le_gt_cases (Zpos (digits2_pos p)) k) as [|G]; [assumption|].
  assert (2 ^ k <= 2 ^ (Zpos (digits2_pos p) - 1))
    by (apply Z.pow_le_mono_r; lia).
  lia.
Qed.

Lemma Zdigits2_lt m : 0 <= m -> m < 2 ^ Zdigits2 m.
Proof.
  intros H. destruct m as [|p|p]; cbn [Zdigits2]; [cbn; lia| |lia].
  apply digits2_pos_bounds.
Qed.

Lemma Zdigits2_succ m : 0 <= m -> Zdigits2 (m + 1) <= Zdigits2 m + 1.
Proof.
  intros H. apply Zdigits2_le.
  - pose proof (Zdigits2_lt m H). pose proof (Zdigits2_nonneg m).
    rewrite Z.pow_add_r, Z.pow_1_r by lia. lia.
  - pose proof (Zdigits2_nonneg m). lia.
Qed.

Lemma shr_1_digits mrs :
  0 <= shr_m mrs ->
  0 <= shr_m (shr_1 mrs) /\
  Zdigits2 (shr_m (shr_1 mrs)) = Z.max (Zdigits2 (shr_m mrs) - 1) 0.
Proof.
  destruct mrs as [m r s]. cbn [shr_m]. intros H.
  destruct m as [|[p|p|]|p]; cbn [shr_1 shr_m Zdigits2 digits2_pos]; try lia.
Qed.

Lemma iter_shr_1_digits p : forall mrs,
  0 <= shr_m mrs ->
  0 <= shr_m (iter_pos shr_1 p mrs) /\
  Zdigits2 (shr_m (iter_pos shr_1 p mrs)) =
    Z.max (Zdigits2 (shr_m mrs) - Zpos p) 0.
Proof.
  induction p as [p IH|p IH|]; intros mrs H; cbn [iter_pos].
  - destruct (shr_1_digits mrs H) as [H1 E1].
    destruct (IH _ H1) as [H2 E2]. destruct (IH _ H2) as [H3 E3].
    split; [exact H3|]. rewrite E3, E2, E1. lia.
  - destruct (IH _ H) as [H2 E2]. destruct (IH _ H2) as [H3 E3].
    split; [exact H3|]. rewrite E3, E2. lia.
  - apply shr_1_digits. exact H.
Qed.

Lemma shr_record_of_loc_m m l : shr_m (shr_record_of_loc m l) = m.
Proof. destruct l as [|[]]; reflexivity. Qed.

Lemma round_nearest_even_cases m l :
  round_nearest_even m l = m \/ round_nearest_even m l = m + 1.
Proof.
  destruct l as [|[]]; cbn [round_nearest_even]; auto.
  destruct (Z.even m); auto.
Qed.

(** After [shr_fexp] the mantissa is still nonnegative, and exponent and
    digits are bounded by those before. *)
Lemma shr_fexp_bounds m e l b :
  0 <= m -> Zdigits2 m + e <= b -> e <= b - prec -> emin <= b - prec ->
  let r := shr_fexp prec emax m e l in
  0 <= shr_m (fst r) /\
  snd r <= b - prec /\
  Zdigits2 (shr_m (fst r)) + snd r <= b.
Proof.
  intros Hm Hd He Hmin. unfold shr_fexp, shr, fexp.
  pose proof (Zdigits2_nonneg m) as Hn.
  destruct (Z.max (Zdigits2 m + e - prec) emin - e) as [|p|p] eqn:E;
    cbn [fst snd]; rewrite ?shr_record_of_loc_m.
  - unfold prec in *. lia.
  - destruct (iter_shr_1_digits p (shr_record_of_loc m l)) as [H1 E1];
      [rewrite shr_record_of_loc_m; exact Hm|].
    rewrite shr_record_of_loc_m in E1.
    split; [exact H1|]. rewrite E1. unfold prec in *. lia.
  - unfold prec in *. lia.
Qed.

Lemma binary_round_aux_finite sx mx ex lx :
  0 <= mx -> Zdigits2 mx + ex <= emax - 1 -> ex <= emax - 1 - prec ->
  is_finite (binary_round_aux prec emax sx mx ex lx) = true.
Proof.
  intros Hm Hd He. unfold binary_round_aux.
  pose proof (shr_fexp_bounds mx ex lx (emax - 1) Hm Hd He) as B.
  destruct (shr_fexp prec emax mx ex lx) as [mrs' e'].
  cbn [fst snd] in B. destruct B as (H1 & E1 & D1); [vm_compute; discriminate|].
  set (m1 := round_nearest_even (shr_m mrs') (loc_of_shr_record mrs')).
  assert (Hm1 : 0 <= m1 /\ Zdigits2 m1 <= Zdigits2 (shr_m mrs') + 1).
  { unfold m1.
    destruct (round_nearest_even_cases (shr_m mrs') (loc_of_shr_record mrs'))
      as [->| ->].
    - lia.
    - split; [lia|]. apply Zdigits2_succ. exact H1. }
  destruct Hm1 as [Hm1 Dm1].
  pose proof (shr_fexp_bounds m1 e' loc_Exact emax Hm1) as B.
  destruct (shr_fexp prec emax m1 e' loc_Exact) as [mrs'' e''].
  cbn [fst snd] in B. destruct B as (H2 & E2 & D2);
    [lia|unfold prec in *; lia|vm_compute; discriminate|].
  destruct (shr_m mrs'') as [|p|p]; [reflexivity| |lia].
  destruct (Z.leb_spec e'' (emax - prec)); [reflexivity|lia].
Qed.

Lemma SFdiv_integers_finite sx n d :
  Zpos n < 2 ^ (emax - 1) ->
  is_finite (SFdiv prec emax (S754_finite sx n 0) (S754_finite false d 0)) = true.
Proof.
  intros Hn. cbn [SFdiv]. unfold SFdiv_core_binary.
  set (d1 := Zdigits2 (Zpos n)). set (d2 := Zdigits2 (Zpos d)).
  set (e' := Z.min (fexp prec emax (d1 + 0 - (d2 + 0))) (0 - 0)).
  assert (He' : e' <= 0) by (unfold e'; lia).
  assert (Hd1 : d1 <= emax - 1).
  { apply Zdigits2_le; [lia|vm_compute; discriminate]. }
  set (m' := match 0 - 0 - e' with
             | 0 => Zpos n
             | Z.pos _ => Z.shiftl (Zpos n) (0 - 0 - e')
             | Z.neg _ => 0
             end).
  assert (Hm' : 0 <= m' < 2 ^ (d1 - e')).
  { unfold m'. pose proof (Zdigits2_lt (Zpos n) ltac:(lia)) as L. fold d1 in L.
    pose proof (Zdigits2_nonneg (Zpos n)) as N. fold d1 in N.
    destruct (0 - 0 - e') as [|p|p] eqn:E.
    - replace (d1 - e') with d1 by lia. lia.
    - rewrite Z.shiftl_mul_pow2 by lia.
      replace (d1 - e') with (d1 + Zpos p) by lia.
      rewrite Z.pow_add_r by lia.
      assert (0 < 2 ^ Zpos p) by (apply Z.pow_pos_nonneg; lia). nia.
    - lia. }
  pose proof (Z_div_mod m' (Zpos d) ltac:(lia)) as DM.
  destruct (Z.div_eucl m' (Zpos d)) as [q r].
  destruct DM as [Eq Hr].
  assert (Hq : 0 <= q <= m') by nia.
  apply binary_round_aux_finite.
  - lia.
  - assert (Zdigits2 q <= d1 - e').
    { apply Zdigits2_le; [lia|]. pose proof (Zdigits2_nonneg (Zpos n)). fold d1 in H. lia. }
    lia.
  - unfold emax, prec in *. lia.
Qed.

Lemma float_of_wei_finite n :
  0 <= n < 2 ^ 256 -> is_finite (float_of_decimal (from_wei n)) = true.
Proof.
  intros [H0 H]. unfold float_of_decimal.
  change (Qnum (from_wei n)) with (n * 1).
  change (Qden (from_wei n)) with (1 * 1000000000000000000)%positive.
  destruct (n * 1) as [|p|p] eqn:E; [reflexivity| |lia].
  apply SFdiv_integers_finite.
  assert (2 ^ 256 < 2 ^ (emax - 1)) by (vm_compute; reflexivity). lia.
Qed.

(** A product with a zero factor: zero if the other factor is finite,
    NaN if it is not. *)
Lemma float_mul_zero_l x y :
  is_zero x = true -> is_finite y = true -> is_zero (float_mul x y) = true.
Proof. destruct x, y; try discriminate; reflexivity. Qed.

Lemma float_mul_zero_r x y :
  is_finite x = true -> is_zero y = true -> is_zero (float_mul x y) = true.
Proof. destruct x, y; try discriminate; reflexivity. Qed.

Lemma float_mul_zero_nonfinite x y :
  is_zero x = true -> is_finite y = false -> is_nan (float_mul x y) = true.
Proof. destruct x, y; try discriminate; reflexivity. Qed.

Lemma is_zero_finite x : is_zero x = true -> is_finite x = true.
Proof. destruct x; try discriminate; reflexivity. Qed.

(** Neither a zero nor a NaN reaches the threshold. *)
Lemma zero_below_trigger x :
  is_zero x = true -> float_ge_int x TCG_SELL_AT = false.
Proof. destruct x as [[]| | |]; try discriminate; reflexivity. Qed.

Lemma nan_below_trigger x :
  is_nan x = true -> float_ge_int x TCG_SELL_AT = false.
Proof. destruct x; try discriminate; reflexivity. Qed.

(** Whatever it multiplies, a price of zero gives no market cap that
    reaches the threshold. *)
Lemma float_mul_by_zero_below_trigger x y :
  is_zero y = true -> float_ge_int (float_mul x y) TCG_SELL_AT = false.
Proof.
  intros H. destruct (is_finite x) eqn:F.
  - apply zero_below_trigger, float_mul_zero_r; assumption.
  - apply nan_below_trigger. destruct x, y; try discriminate; reflexivity.
Qed.

(** ** Computations, step by step *)

Lemma bind_ok {A B} (m : M W A) (k : A -> M W B) s a :
  res (m s) = Ok a -> bind m k s = prepend (evs (m s)) (k a (st (m s))).
Proof. intros H. unfold bind, prepend. rewrite H. reflexivity. Qed.

Lemma bind_raise {A B} (m : M W A) (k : A -> M W B) s e :
  res (m s) = Raise e ->
  bind m k s = {| res := Raise e; st := st (m s); evs := evs (m s) |}.
Proof. intros H. unfold bind. rewrite H. reflexivity. Qed.

Lemma evs_bind {A B} (m : M W A) (k : A -> M W B) s :
  evs (bind m k s) =
  evs (m s) ++ match res (m s) with
               | Ok a => evs (k a (st (m s)))
               | Raise _ => []
               end.
Proof.
  unfold bind. destruct (res (m s)); cbn [evs]; auto using app_nil_r.
Qed.

(** A call that returns, and a call that raises. *)
Lemma call_returns {A B} (f : W -> result A * W) ev (k : A -> M W B) s a w' :
  f (world s) = (Ok a, w') ->
  bind (call f ev) k s =
  prepend [ev (Ok a)]
          (k a {| world := w'; mon_usd_cache := mon_usd_cache s |}).
Proof.
  intros H. rewrite (bind_ok _ _ _ a); unfold call; rewrite H; reflexivity.
Qed.

Lemma call_raises {A B} (f : W -> result A * W) ev (k : A -> M W B) s e w' :
  f (world s) = (Raise e, w') ->
  bind (call f ev) k s =
  {| res := Raise e;
     st := {| world := w'; mon_usd_cache := mon_usd_cache s |};
     evs := [ev (Raise e)] |}.
Proof.
  intros H. rewrite (bind_raise _ _ _ e); unfold call; rewrite H; reflexivity.
Qed.

Lemma call_returns_at {A B} (f : W -> result A * W) ev (k : A -> M W B)
      w c a w' :
  f w = (Ok a, w') ->
  bind (call f ev) k {| world := w; mon_usd_cache := c |} =
  prepend [ev (Ok a)] (k a {| world := w'; mon_usd_cache := c |}).
Proof. intros H. apply call_returns. exact H. Qed.

Lemma call_raises_at {A B} (f : W -> result A * W) ev (k : A -> M W B)
      w c e w' :
  f w = (Raise e, w') ->
  bind (call f ev) k {| world := w; mon_usd_cache := c |} =
  {| res := Raise e;
     st := {| world := w'; mon_usd_cache := c |};
     evs := [ev (Raise e)] |}.
Proof. intros H. apply call_raises. exact H. Qed.

Lemma emit_then {B} e (k : unit -> M W B) s :
  bind (emit e) k s = prepend [e] (k tt s).
Proof. reflexivity. Qed.

Lemma print_then {B} m (k : unit -> M W B) s :
  bind (print m) k s = prepend [EvPrint m] (k tt s).
Proof. reflexivity. Qed.

Lemma time_now_then {B} (k : Q -> M W B) s :
  bind time_now k s =
  prepend [] (k (fst (time_time (world s)))
                {| world := snd (time_time (world s));
                   mon_usd_cache := mon_usd_cache s |}).
Proof. reflexivity. Qed.

Lemma prepend_nil {A} (o : outcome W A) : prepend [] o = o.
Proof. destruct o; reflexivity. Qed.

Lemma try_then {A B} (m : M W A) (k : result A -> M W B) s :
  bind (try_except m) k s = prepend (evs (m s)) (k (res (m s)) (st (m s))).
Proof. reflexivity. Qed.

Lemma sleep_then {B} n (k : unit -> M W B) s :
  bind (sleep n) k s = prepend [EvSleep n] (k tt (after_sleep n s)).
Proof. reflexivity. Qed.

Lemma ret_then {A B} (a : A) (k : A -> M W B) s : bind (ret a) k s = k a s.
Proof. unfold bind. cbn [ret res st evs app]. destruct (k a s); reflexivity. Qed.

Lemma prepend_prepend {A} l1 l2 (o : outcome W A) :
  prepend l1 (prepend l2 o) = prepend (l1 ++ l2) o.
Proof. unfold prepend. cbn [res st evs]. rewrite app_assoc. reflexivity. Qed.

Lemma of_result_returns {A B} (r : result A) (k : A -> M W B) s a :
  r = Ok a -> bind (of_result r) k s = k a s.
Proof.
  intros ->. unfold bind, of_result. cbn [res st evs app].
  destruct (k a s); reflexivity.
Qed.

Lemma of_result_raises {A B} (r : result A) (k : A -> M W B) s e :
  r = Raise e ->
  bind (of_result r) k s = {| res := Raise e; st := s; evs := [] |}.
Proof. intros ->. reflexivity. Qed.

(** ** Events a computation can produce *)

Lemma emits_ret {A} p (a : A) : emits p (@ret W A a).
Proof. intros s. reflexivity. Qed.

Lemma emits_raise {A} p e : emits p (@raise W A e).
Proof. intros s. reflexivity. Qed.

Lemma emits_bind {A B} p (m : M W A) (k : A -> M W B) :
  emits p m -> (forall a, emits p (k a)) -> emits p (bind m k).
Proof.
  intros Hm Hk s. rewrite evs_bind, forallb_app, Hm.
  destruct (res (m s)); [apply Hk | reflexivity].
Qed.

Lemma emits_try_except {A} p (m : M W A) : emits p m -> emits p (try_except m).
Proof. intros Hm s. apply Hm. Qed.

Lemma emits_call {A} p (f : W -> result A * W) ev :
  (forall r, p (ev r) = true) -> emits p (call f ev).
Proof. intros H s. cbn. rewrite H. reflexivity. Qed.

Lemma emits_emit p e : p e = true -> emits p (@emit W e).
Proof. intros H s. cbn. rewrite H. reflexivity. Qed.

Lemma emits_print p m : p (EvPrint m) = true -> emits p (@print W m).
Proof. apply emits_emit. Qed.

Lemma emits_sleep p n : p (EvSleep n) = true -> emits (W:=W) p (sleep n).
Proof. intros H s. cbn. rewrite H. reflexivity. Qed.

Lemma emits_time_now p : emits (W:=W) p time_now.
Proof. intros s. reflexivity. Qed.

Lemma emits_get_cache p : emits (W:=W) p get_cache.
Proof. intros s. reflexivity. Qed.

Lemma emits_set_cache p c : emits (W:=W) p (set_cache c).
Proof. intros s. reflexivity. Qed.

Lemma emits_of_result {A} p (r : result A) : emits p (@of_result W A r).
Proof. intros s. reflexivity. Qed.

Create HintDb emits.
#[local] Hint Resolve emits_ret emits_raise emits_try_except emits_time_now
  emits_get_cache emits_set_cache emits_of_result : emits.

(** Walks a straight-line computation: one rule per construct, a case
    split at every branch, the leaves by evaluation. *)
Ltac emits_walk :=
  repeat first
    [ progress intros
    | apply emits_bind
    | apply emits_call
    | apply emits_print
    | apply emits_emit
    | apply emits_sleep
    | solve [auto with emits]
    | reflexivity
    | match goal with
      | |- emits _ (if ?b then _ else _) => destruct b
      | |- emits _ (match ?r with Ok _ => _ | Raise _ => _ end) => destruct r
      | |- emits _ (match ?o with Some _ => _ | None => _ end) => destruct o
      end ].

(** ** Reading a run, piecewise *)

Lemma invocations_app l1 l2 :
  invocations (l1 ++ l2) = (invocations l1 + invocations l2)%nat.
Proof.
  induction l1 as [|e l1 IH]; [reflexivity|].
  destruct e; cbn [invocations app]; rewrite IH; reflexivity.
Qed.

Lemma submitted_app l1 l2 : submitted (l1 ++ l2) = submitted l1 ++ submitted l2.
Proof.
  induction l1 as [|e l1 IH]; [reflexivity|].
  destruct e; cbn [submitted app]; rewrite IH; reflexivity.
Qed.

Lemma snapshot_reads_app l1 l2 :
  snapshot_reads (l1 ++ l2) = snapshot_reads l1 ++ snapshot_reads l2.
Proof.
  induction l1 as [|e l1 IH]; [reflexivity|].
  destruct e as [| | ? ? [|] ? | | | | | | | | | | | ];
    cbn [snapshot_reads app]; rewrite IH; reflexivity.
Qed.

Lemma skeleton_app l1 l2 : skeleton (l1 ++ l2) = skeleton l1 ++ skeleton l2.
Proof.
  induction l1 as [|e l1 IH]; [reflexivity|].
  cbn [skeleton app]. destruct (ctrl_of e); rewrite IH; reflexivity.
Qed.

Lemma quiet_invocations l :
  forallb no_sell_activity l = true -> invocations l = O.
Proof.
  induction l as [|e l IH]; [reflexivity|].
  cbn [forallb]. intros H. apply andb_prop in H as [He Hl].
  destruct e; try discriminate He; cbn [invocations]; auto.
Qed.

Lemma quiet_submitted l :
  forallb no_sell_activity l = true -> submitted l = [].
Proof.
  induction l as [|e l IH]; [reflexivity|].
  cbn [forallb]. intros H. apply andb_prop in H as [He Hl].
  destruct e; try discriminate He; cbn [submitted]; auto.
Qed.

Lemma quiet_skeleton l : forallb no_ctrl l = true -> skeleton l = [].
Proof.
  induction l as [|e l IH]; [reflexivity|].
  cbn [forallb skeleton]. intros H. apply andb_prop in H as [He Hl].
  unfold no_ctrl, is_ctrl in He. destruct (ctrl_of e); [discriminate He|auto].
Qed.

Lemma quiet_snapshot_reads l :
  forallb no_snapshot_read l = true -> snapshot_reads l = [].
Proof.
  induction l as [|e l IH]; [reflexivity|].
  cbn [forallb]. intros H. apply andb_prop in H as [He Hl].
  destruct e as [| | ? ? [|] ? | | | | | | | | | | | ];
    try discriminate He; cbn [snapshot_reads]; auto.
Qed.

(** ** The sell executor *)

Lemma tokens_get_TCG : tokens_get TOKENS "TCG" = Some tcg_address.
Proof. reflexivity. Qed.

(** One step of a run: the next call returns or raises, a line is
    printed, the clock is read. *)
Ltac run_call :=
  match goal with
  | |- context [bind (call ?f ?ev) ?k ?s] =>
      let a := fresh "a" in
      let e := fresh "e" in
      let w := fresh "w" in
      let E := fresh "E" in
      destruct (f (world s)) as [[a|e] w] eqn:E;
      [ rewrite (call_returns f ev k s a w E)
      | rewrite (call_raises f ev k s e w E) ]
  end.

Ltac run_tidy :=
  cbv beta zeta delta [to_checksum_address];
  cbn [evs res st prepend world mon_usd_cache app ret raise].

Ltac run_quiet :=
  first [ rewrite print_then | rewrite emit_then
        | rewrite time_now_then, prepend_nil ].

(** After its entry mark, the sell executor neither enters itself again,
    nor sleeps, nor reads a market snapshot. *)
Lemma sell_all_tcg_events s :
  exists l,
    evs (sell_all_tcg WALLET s) = EvInvokeSell :: l /\
    forallb (fun e => no_ctrl e && no_snapshot_read e) l = true.
Proof.
  unfold sell_all_tcg. rewrite emit_then. cbn [evs prepend app].
  eexists. split; [reflexivity|].
  match goal with
  | |- forallb ?p (evs (?m s)) = true => revert s; change (emits p m)
  end.
  rewrite tokens_get_TCG. emits_walk.
Qed.

Lemma forallb_weaken {A} (p q : A -> bool) l :
  (forall x, p x = true -> q x = true) ->
  forallb p l = true -> forallb q l = true.
Proof.
  intros Hpq. induction l as [|x l IH]; [reflexivity|].
  cbn [forallb]. intros H. apply andb_prop in H as [Hx Hl].
  rewrite (Hpq _ Hx), (IH Hl). reflexivity.
Qed.

Lemma sell_all_tcg_skeleton s : skeleton (evs (sell_all_tcg WALLET s)) = [Invoke].
Proof.
  destruct (sell_all_tcg_events s) as [l [-> Hl]].
  cbn [skeleton ctrl_of]. f_equal. apply quiet_skeleton.
  revert Hl. apply forallb_weaken. intros e H.
  apply andb_prop in H. tauto.
Qed.

Lemma sell_all_tcg_snapshot_reads s :
  snapshot_reads (evs (sell_all_tcg WALLET s)) = [].
Proof.
  destruct (sell_all_tcg_events s) as [l [-> Hl]].
  cbn [snapshot_reads]. apply quiet_snapshot_reads.
  revert Hl. apply forallb_weaken. intros e H.
  apply andb_prop in H. tauto.
Qed.

Ltac run_sell :=
  repeat (run_tidy;
          first [ run_quiet
                | run_call
                | match goal with
                  | |- context [if ?x =? 0 then _ else _] =>
                      destruct (Z.eqb_spec x 0)
                  end ]);
  run_tidy.

(** The early return of the sell executor. *)
Lemma sell_all_tcg_nothing_to_sell s w' :
  erc20_balanceOf tcg_address WALLET (world s) = (Ok 0, w') ->
  sell_all_tcg WALLET s =
  {| res := Ok tt;
     st := {| world := w'; mon_usd_cache := mon_usd_cache s |};
     evs := [EvInvokeSell; EvBalanceOf tcg_address WALLET (Ok 0);
             EvPrint MsgBalanceZero] |}.
Proof.
  intros Hbal. unfold sell_all_tcg.
  rewrite emit_then, tokens_get_TCG. run_tidy.
  rewrite (call_returns _ _ _ _ _ _ Hbal). run_tidy.
  cbn [Z.eqb]. rewrite print_then. reflexivity.
Qed.

(** C6. If the balance read at the start of [sell_all_tcg] is zero, the
    executor returns normally (no exception reaches the caller) after the
    line "TCG balance is 0, nothing to sell": its whole run is the entry,
    that one balance read and that line, so neither an approval nor a sell
    transaction is submitted. *)
Theorem sell_all_tcg_zero_balance_is_a_no_op :
  forall (s : store W) (w' : W),
    erc20_balanceOf tcg_address WALLET (world s) = (Ok 0, w') ->
    res (sell_all_tcg WALLET s) = Ok tt /\
    evs (sell_all_tcg WALLET s) =
      [EvInvokeSell; EvBalanceOf tcg_address WALLET (Ok 0);
       EvPrint MsgBalanceZero] /\
    submitted (evs (sell_all_tcg WALLET s)) = [].
Proof.
  intros s w' Hbal. rewrite (sell_all_tcg_nothing_to_sell s w' Hbal).
  repeat split.
Qed.

(** C5. Whenever [sell_all_tcg] submits a sell transaction, its
    [amountIn] is the balance read in that run, and its [amountOutMin] is
    [q * 95 // 100] for the amount [q] the lens quoted for selling that
    balance, which is the floor of 95 q / 100: the largest integer [m] with
    [100 m <= 95 q]. *)
Theorem sell_min_out_is_floor_of_95_percent :
  forall (s : store W) (tx : transaction)
         (router : address) (amountIn amountOutMin : Z)
         (token to : address) (deadline : Z),
    In tx (submitted (evs (sell_all_tcg WALLET s))) ->
    tx_call_of tx = Sell router amountIn amountOutMin token to deadline ->
    exists q : Z,
      In (EvBalanceOf tcg_address WALLET (Ok amountIn))
         (evs (sell_all_tcg WALLET s)) /\
      In (EvGetAmountOut tcg_address amountIn false (Ok (router, q)))
         (evs (sell_all_tcg WALLET s)) /\
      amountOutMin = q * 95 / 100 /\
      100 * amountOutMin <= q * 95 < 100 * amountOutMin + 100.
Proof.
  intros s tx router amountIn amountOutMin token to deadline.
  unfold sell_all_tcg. rewrite emit_then, tokens_get_TCG.
  run_sell.
  all: cbn [submitted In]; intros Hin Htx.
  all: repeat match goal with
         | H : _ \/ _ |- _ => destruct H as [H|H]
         | H : False |- _ => destruct H
         end.
  all: subst tx; cbn [tx_call_of] in Htx; try discriminate Htx.
  all: injection Htx as <- <- <- <- <- <-.
  all: match goal with
       | E : lens_getAmountOut _ _ _ _ = (Ok ?q, _) |- _ =>
           exists (snd q); destruct q as [rt q']; cbn [fst snd]
       end.
  all: split; [cbn [In]; auto 12 | ].
  all: split; [cbn [In]; auto 12 | split; [reflexivity|]].
  all: pose proof (Z.mul_div_le (q' * 95) 100 ltac:(lia));
       pose proof (Z.mul_succ_div_gt (q' * 95) 100 ltac:(lia)); lia.
Qed.

(** C4. Whenever a run of [sell_all_tcg] hands a sell transaction to
    [send_raw_transaction], the run reads as follows: the approval was
    sent and got hash [h]; [wait_for_transaction_receipt h] returned; only
    then the transaction count was read again, giving [n]; and the sell
    transaction carries that [n] as its nonce, whatever count [n0] the
    approval was built with.  Nothing was submitted before the approval. *)
Theorem sell_is_sent_after_the_approval_receipt_with_a_fresh_nonce :
  forall (s : store W) (tx : transaction) (r : result hash),
    In (EvSend tx r) (evs (sell_all_tcg WALLET s)) ->
    is_sell_tx tx = true ->
    exists (pre post : list event) (approve_tx : transaction) (h : hash)
           (n0 g0 n g balance amount_out_min : Z),
      evs (sell_all_tcg WALLET s) =
        pre ++
        [ EvTxCount WALLET (Ok n0); EvGasPrice (Ok g0);
          EvSend approve_tx (Ok h);
          EvWait h (Ok tt);
          EvPrint (MsgApproved h);
          EvPrint (MsgSelling balance amount_out_min);
          EvTxCount WALLET (Ok n); EvGasPrice (Ok g);
          EvSend tx r ] ++ post /\
      is_approve_tx approve_tx = true /\
      tx_nonce approve_tx = n0 /\
      tx_nonce tx = n /\
      submitted pre = [] /\
      submitted post = [].
Proof.
  intros s tx r.
  unfold sell_all_tcg. rewrite emit_then, tokens_get_TCG.
  run_sell.
  all: cbn [In]; intros Hin Hsell.
  all: repeat match goal with
         | H : _ \/ _ |- _ => destruct H as [H|H]
         | H : False |- _ => destruct H
         end.
  all: try discriminate Hin.
  all: injection Hin as <- <-; try discriminate Hsell.
  all: repeat match goal with u : unit |- _ => destruct u end.
  all: eexists [_; _; _; _; _]; do 9 eexists.
  all: split; [reflexivity|]; repeat split.
Qed.

(** ** The reference-price getter *)

(** The three ways through [get_mon_usd_price]. *)
Lemma get_mon_usd_price_fresh s :
  cache_is_fresh s = true ->
  get_mon_usd_price s =
  {| res := Ok (fst (mon_usd_cache s));
     st := {| world := snd (time_time (world s));
              mon_usd_cache := mon_usd_cache s |};
     evs := [] |}.
Proof.
  unfold cache_is_fresh, get_mon_usd_price. intros F.
  unfold bind at 1. cbn [get_cache res st evs].
  rewrite time_now_then, prepend_nil. cbv beta. rewrite F. reflexivity.
Qed.

Lemma get_cache_then {B} (k : pyfloat * Q -> M W B) s :
  bind get_cache k s = k (mon_usd_cache s) s.
Proof.
  unfold bind. cbn [get_cache res st evs app]. destruct (k _ s); reflexivity.
Qed.

Lemma set_cache_then {B} c (k : unit -> M W B) s :
  bind (set_cache c) k s =
  k tt {| world := world s; mon_usd_cache := c |}.
Proof.
  unfold bind. cbn [set_cache res st evs app]. destruct (k _ _); reflexivity.
Qed.

Ltac run_getter F :=
  unfold cache_is_fresh, secondary_reply, primary_reply in *;
  unfold get_mon_usd_price;
  rewrite get_cache_then, time_now_then, prepend_nil; cbv beta zeta;
  rewrite F.

Lemma get_mon_usd_price_primary s p :
  cache_is_fresh s = false ->
  fst (primary_reply s) = Ok p ->
  res (get_mon_usd_price s) = Ok p /\
  fst (mon_usd_cache (st (get_mon_usd_price s))) = p /\
  evs (get_mon_usd_price s) = [EvBinance (Ok p)].
Proof.
  intros F B. run_getter F.
  destruct (http_binance_price (snd (time_time (world s)))) as [r w2] eqn:P.
  cbn [fst] in B. subst r.
  rewrite try_then. rewrite (call_returns_at _ _ _ _ _ _ _ P).
  rewrite time_now_then, prepend_nil, set_cache_then.
  cbn [prepend ret res st evs mon_usd_cache fst app]. auto.
Qed.

Lemma get_mon_usd_price_secondary s e :
  cache_is_fresh s = false ->
  fst (primary_reply s) = Raise e ->
  res (get_mon_usd_price s) = fst (secondary_reply s) /\
  evs (get_mon_usd_price s) =
    [EvBinance (Raise e); EvCoinGecko (fst (secondary_reply s))] /\
  match fst (secondary_reply s) with
  | Ok p => fst (mon_usd_cache (st (get_mon_usd_price s))) = p
  | Raise _ => mon_usd_cache (st (get_mon_usd_price s)) = mon_usd_cache s
  end.
Proof.
  intros F B. run_getter F.
  destruct (http_binance_price (snd (time_time (world s)))) as [r w2] eqn:P.
  cbn [fst snd] in *. subst r.
  rewrite try_then. rewrite (call_raises_at _ _ _ _ _ _ _ P).
  cbn [prepend res st evs].
  destruct (http_coingecko_price w2) as [[q|e2] w3] eqn:G; cbn [fst].
  - rewrite (call_returns_at _ _ _ _ _ _ _ G).
    rewrite time_now_then, prepend_nil, set_cache_then.
    cbn [prepend ret res st evs mon_usd_cache fst app]. auto.
  - rewrite (call_raises_at _ _ _ _ _ _ _ G).
    cbn [prepend ret res st evs mon_usd_cache fst app]. auto.
Qed.

(** C2, as the code has it.  [get_mon_usd_price] raises exactly when the
    cached entry is not younger than [MON_PRICE_TTL] and both Binance and
    CoinGecko fail, whether or not the cache was ever populated.  While the
    entry is younger than the TTL the getter returns the cached price and
    asks nobody; otherwise a returned price is the fresh one of the first
    source that succeeds, and it is cached.  An expired cached price is
    never returned. *)
Theorem get_mon_usd_price_raises_iff_stale_and_both_sources_fail :
  forall s : store W,
    ((exists e, res (get_mon_usd_price s) = Raise e) <->
     cache_is_fresh s = false /\
     is_ok (fst (primary_reply s)) = false /\
     is_ok (fst (secondary_reply s)) = false) /\
    (cache_is_fresh s = true ->
     res (get_mon_usd_price s) = Ok (fst (mon_usd_cache s)) /\
     evs (get_mon_usd_price s) = []) /\
    (cache_is_fresh s = false ->
     forall v, res (get_mon_usd_price s) = Ok v ->
       (fst (primary_reply s) = Ok v \/
        is_ok (fst (primary_reply s)) = false /\
        fst (secondary_reply s) = Ok v) /\
       fst (mon_usd_cache (st (get_mon_usd_price s))) = v).
Proof.
  intros s.
  destruct (cache_is_fresh s) eqn:F.
  - rewrite (get_mon_usd_price_fresh s F). cbn [res evs].
    split; [split|split].
    + intros [e He]. discriminate He.
    + intros [H _]. discriminate H.
    + auto.
    + intros H. discriminate H.
  - destruct (fst (primary_reply s)) as [p|e1] eqn:B.
    + destruct (get_mon_usd_price_primary s p F B) as (R & C & _).
      rewrite R, C. cbn [is_ok].
      split; [split|split].
      * intros [e He]. discriminate He.
      * intros (_ & H & _). discriminate H.
      * intros H. discriminate H.
      * intros _ v Hv. injection Hv as <-. auto.
    + destruct (get_mon_usd_price_secondary s e1 F B) as (R & _ & C).
      rewrite R. cbn [is_ok].
      destruct (fst (secondary_reply s)) as [p|e2]; cbn [is_ok].
      * split; [split|split].
        -- intros [e He]. discriminate He.
        -- intros (_ & _ & H). discriminate H.
        -- intros H. discriminate H.
        -- intros _ v Hv. injection Hv as <-. auto.
      * split; [split|split].
        -- auto.
        -- intros _. exists e2. reflexivity.
        -- intros H. discriminate H.
        -- intros _ v Hv. discriminate Hv.
Qed.

(** ** The market-data reader *)




(** The guard of line 144: the division is reached only with a nonzero
    divisor, so the reciprocal never raises. *)
Lemma reciprocal_guarded amount_out :
  (if truthy (from_wei amount_out)
   then decimal_div 1 (from_wei amount_out)
   else Ok 0%Q) = Ok (unit_price amount_out).
Proof.
  unfold unit_price, truthy, decimal_div.
  destruct (Qeq_bool (from_wei amount_out) 0); reflexivity.
Qed.

(** Without the guard the division raises on a zero quote. *)
Lemma reciprocal_of_zero_raises :
  exists e, decimal_div 1 (from_wei 0) = Raise e.
Proof. eexists. reflexivity. Qed.

Lemma unit_price_zero : unit_price 0 = 0%Q.
Proof. reflexivity. Qed.


(** A read whose three contract calls return. *)
Lemma fetch_price_returns s symbol addr mon router amount_out supply balance
      w1 w2 w3 :
  lens_getAmountOut addr ONE_MON true (world s) = (Ok (router, amount_out), w1) ->
  erc20_totalSupply addr w1 = (Ok supply, w2) ->
  erc20_balanceOf addr WALLET w2 = (Ok balance, w3) ->
  let mon_per_token := unit_price amount_out in
  let market_cap_usd :=
    float_mul (float_mul (float_of_decimal mon_per_token)
                         (float_of_decimal (from_wei supply))) mon in
  let wallet_balance_usd :=
    float_mul (float_mul (float_of_decimal (from_wei balance))
                         (float_of_decimal mon_per_token)) mon in
  fetch_price WALLET symbol addr mon s =
  {| res := Ok market_cap_usd;
     st := {| world := w3; mon_usd_cache := mon_usd_cache s |};
     evs := [ EvGetAmountOut addr ONE_MON true (Ok (router, amount_out));
              EvTotalSupply addr (Ok supply);
              EvBalanceOf addr WALLET (Ok balance);
              EvPrint (MsgToken symbol market_cap_usd wallet_balance_usd) ] |}.
Proof.
  intros Hq Hs Hb. unfold fetch_price. run_tidy.
  rewrite (call_returns _ _ _ _ _ _ Hq). run_tidy.
  rewrite (of_result_returns _ _ _ _ (reciprocal_guarded amount_out)).
  rewrite (call_returns_at _ _ _ _ _ _ _ Hs). run_tidy.
  rewrite (call_returns_at _ _ _ _ _ _ _ Hb). run_tidy.
  rewrite print_then. reflexivity.
Qed.

(** A read never enters the sell executor, submits nothing, does not
    sleep, and asks for exactly one probe buy quote: that of its token. *)
Lemma fetch_price_quiet symbol addr mon :
  emits bystander (fetch_price WALLET symbol addr mon).
Proof. unfold fetch_price. emits_walk. Qed.

Lemma fetch_price_snapshot_reads symbol addr mon s :
  snapshot_reads (evs (fetch_price WALLET symbol addr mon s)) = [addr].
Proof.
  unfold fetch_price. run_tidy. rewrite evs_bind.
  rewrite snapshot_reads_app. cbn [call evs res st snapshot_reads app].
  f_equal. destruct (fst (lens_getAmountOut addr ONE_MON true (world s)));
    [|reflexivity].
  apply quiet_snapshot_reads.
  match goal with
  | |- forallb ?p (evs (?m ?s)) = true => generalize s; change (emits p m)
  end.
  emits_walk.
Qed.

(** ** The retry loop *)

(** One turn of [for attempt in range(1, 4)]. *)
Lemma sell_attempts_step attempt rest sold s :
  sell_attempts WALLET (attempt :: rest) sold s =
  match res (sell_all_tcg WALLET s) with
  | Ok _ =>
      {| res := Ok true;
         st := st (sell_all_tcg WALLET s);
         evs := evs (sell_all_tcg WALLET s) |}
  | Raise e =>
      if attempt <? 3 then
        prepend (evs (sell_all_tcg WALLET s) ++
                 [EvPrint (MsgAttemptFailed attempt e); EvSleep 3])
                (sell_attempts WALLET rest sold
                   (after_sleep 3 (st (sell_all_tcg WALLET s))))
      else
        prepend (evs (sell_all_tcg WALLET s) ++
                 [EvPrint (MsgAttemptFailed attempt e)])
                (sell_attempts WALLET rest sold (st (sell_all_tcg WALLET s)))
  end.
Proof.
  cbn [sell_attempts]. rewrite try_then.
  destruct (res (sell_all_tcg WALLET s)) as [u|e].
  - unfold prepend, ret. cbn [res st evs]. rewrite app_nil_r. reflexivity.
  - rewrite print_then. destruct (attempt <? 3).
    + rewrite sleep_then. unfold prepend. cbn [res st evs].
      rewrite <- ?app_assoc. reflexivity.
    + rewrite ret_then. unfold prepend. cbn [res st evs].
      rewrite <- ?app_assoc. reflexivity.
Qed.

(** The loop over the attempts always ends, with the flag as its value. *)
Lemma sell_attempts_total attempts sold s :
  exists b, res (sell_attempts WALLET attempts sold s) = Ok b.
Proof.
  revert s. induction attempts as [|a rest IH]; intros s.
  - exists sold. reflexivity.
  - rewrite sell_attempts_step.
    destruct (res (sell_all_tcg WALLET s)); [exists true; reflexivity|].
    destruct (a <? 3); cbn [prepend res]; apply IH.
Qed.

(** The loop over the attempts does what the retry policy says. *)
Lemma sell_attempts_policy s :
  res (sell_attempts WALLET [1; 2; 3] false s) =
    Ok (snd (retry_policy WALLET s)) /\
  evs (sell_attempts WALLET [1; 2; 3] false s) = fst (retry_policy WALLET s).
Proof.
  unfold retry_policy. cbv zeta.
  rewrite sell_attempts_step.
  destruct (res (sell_all_tcg WALLET s)) as [u1|e1]; [auto|].
  change (1 <? 3) with true. cbv iota. cbn [prepend res evs].
  set (s2 := after_sleep 3 (st (sell_all_tcg WALLET s))).
  rewrite sell_attempts_step.
  destruct (res (sell_all_tcg WALLET s2)) as [u2|e2].
  { cbn [res evs fst snd]. rewrite <- app_assoc. auto. }
  change (2 <? 3) with true. cbv iota. cbn [prepend res evs].
  set (s3 := after_sleep 3 (st (sell_all_tcg WALLET s2))).
  rewrite sell_attempts_step.
  destruct (res (sell_all_tcg WALLET s3)) as [u3|e3].
  { cbn [res evs fst snd]. rewrite <- !app_assoc. auto. }
  change (3 <? 3) with false. cbv iota.
  cbn [prepend sell_attempts ret res evs fst snd].
  rewrite app_nil_r, <- !app_assoc. auto.
Qed.

Lemma skeleton_prepend {A} l (o : outcome W A) :
  skeleton (evs (prepend l o)) = skeleton l ++ skeleton (evs o).
Proof. apply skeleton_app. Qed.

(** The four ways through the three attempts. *)
Lemma sell_attempts_skeleton s :
  let o := sell_attempts WALLET [1; 2; 3] false s in
  res o = Ok true /\
  (skeleton (evs o) = [Invoke] \/
   skeleton (evs o) = [Invoke; Failed 1; Slept 3; Invoke] \/
   skeleton (evs o) =
     [Invoke; Failed 1; Slept 3; Invoke; Failed 2; Slept 3; Invoke]) \/
  res o = Ok false /\
  skeleton (evs o) =
    [Invoke; Failed 1; Slept 3; Invoke; Failed 2; Slept 3; Invoke; Failed 3].
Proof.
  cbv zeta.
  rewrite sell_attempts_step.
  destruct (res (sell_all_tcg WALLET s)) as [u|e1].
  { left. cbn [res evs]. rewrite sell_all_tcg_skeleton. auto. }
  change (1 <? 3) with true. cbv iota.
  set (s1 := after_sleep 3 (st (sell_all_tcg WALLET s))).
  rewrite skeleton_prepend, skeleton_app, sell_all_tcg_skeleton.
  cbn [prepend res skeleton ctrl_of app].
  rewrite sell_attempts_step.
  destruct (res (sell_all_tcg WALLET s1)) as [u|e2].
  { left. cbn [res evs]. rewrite sell_all_tcg_skeleton. auto. }
  change (2 <? 3) with true. cbv iota.
  set (s2 := after_sleep 3 (st (sell_all_tcg WALLET s1))).
  rewrite skeleton_prepend, skeleton_app, sell_all_tcg_skeleton.
  cbn [prepend res skeleton ctrl_of app].
  rewrite sell_attempts_step.
  destruct (res (sell_all_tcg WALLET s2)) as [u|e3].
  { left. cbn [res evs]. rewrite sell_all_tcg_skeleton. auto. }
  change (3 <? 3) with false. cbv iota.
  rewrite skeleton_prepend, skeleton_app, sell_all_tcg_skeleton.
  right. cbn [sell_attempts ret prepend res evs skeleton ctrl_of app]. auto.
Qed.

(** ** One token of one cycle *)

Lemma per_token_skipped symbol addr mon sold s e :
  res (fetch_price WALLET symbol addr mon s) = Raise e ->
  per_token WALLET symbol addr mon sold s =
  {| res := Ok sold;
     st := st (fetch_price WALLET symbol addr mon s);
     evs := evs (fetch_price WALLET symbol addr mon s) ++
            [EvPrint (MsgTokenError symbol e)] |}.
Proof.
  intros H. unfold per_token. rewrite try_then.
  rewrite (bind_raise _ _ _ e H). cbn [res st evs].
  rewrite print_then. reflexivity.
Qed.

Lemma per_token_untriggered symbol addr mon sold s mcap :
  res (fetch_price WALLET symbol addr mon s) = Ok mcap ->
  trigger symbol sold mcap = false ->
  per_token WALLET symbol addr mon sold s =
  {| res := Ok sold;
     st := st (fetch_price WALLET symbol addr mon s);
     evs := evs (fetch_price WALLET symbol addr mon s) |}.
Proof.
  unfold trigger. intros H C. unfold per_token. rewrite try_then.
  rewrite (bind_ok _ _ _ mcap H). rewrite C.
  unfold prepend, ret. cbn [res st evs]. rewrite !app_nil_r. reflexivity.
Qed.

Lemma per_token_triggered symbol addr mon sold s mcap :
  res (fetch_price WALLET symbol addr mon s) = Ok mcap ->
  trigger symbol sold mcap = true ->
  let s1 := st (fetch_price WALLET symbol addr mon s) in
  exists b,
    res (sell_attempts WALLET [1; 2; 3] sold s1) = Ok b /\
    per_token WALLET symbol addr mon sold s =
    {| res := Ok b;
       st := st (sell_attempts WALLET [1; 2; 3] sold s1);
       evs := evs (fetch_price WALLET symbol addr mon s) ++
              EvPrint (MsgTrigger mcap) ::
              evs (sell_attempts WALLET [1; 2; 3] sold s1) ++
              (if b then [] else [EvPrint MsgAllFailed]) |}.
Proof.
  intros H C s1. unfold trigger in C.
  destruct (sell_attempts_total [1; 2; 3] sold s1) as [b Hb].
  exists b. split; [exact Hb|].
  unfold per_token. rewrite try_then.
  rewrite (bind_ok _ _ _ mcap H). rewrite C.
  rewrite print_then. fold s1.
  rewrite (bind_ok _ _ _ b Hb).
  destruct b; cbn [negb].
  - rewrite ret_then. unfold prepend, ret. cbn [res st evs app].
    rewrite !app_nil_r. reflexivity.
  - rewrite print_then. unfold prepend, ret. cbn [res st evs app].
    rewrite !app_nil_r. reflexivity.
Qed.

(** A token is never the end of the cycle. *)
Lemma per_token_total symbol addr mon sold s :
  exists b, res (per_token WALLET symbol addr mon sold s) = Ok b.
Proof.
  destruct (res (fetch_price WALLET symbol addr mon s)) as [mcap|e] eqn:H.
  - destruct (trigger symbol sold mcap) eqn:C.
    + destruct (per_token_triggered _ _ _ _ _ _ H C) as (b & _ & ->).
      exists b. reflexivity.
    + rewrite (per_token_untriggered _ _ _ _ _ _ H C). exists sold. reflexivity.
  - rewrite (per_token_skipped _ _ _ _ _ _ H). exists sold. reflexivity.
Qed.

(** Any token but an unsold TCG: the flag is kept and the run is a
    market-data read with, at most, its error line. *)
Lemma per_token_idle symbol addr mon sold s :
  String.eqb symbol "TCG" && negb sold = false ->
  res (per_token WALLET symbol addr mon sold s) = Ok sold /\
  forallb bystander (evs (per_token WALLET symbol addr mon sold s)) = true.
Proof.
  intros C.
  pose proof (fetch_price_quiet symbol addr mon s) as Q.
  destruct (res (fetch_price WALLET symbol addr mon s)) as [mcap|e] eqn:H.
  - rewrite (per_token_untriggered _ _ _ _ _ mcap H).
    + auto.
    + unfold trigger. rewrite C. reflexivity.
  - rewrite (per_token_skipped _ _ _ _ _ _ H). cbn [res evs].
    rewrite forallb_app, Q. auto.
Qed.

Lemma sell_attempts_snapshot_reads attempts sold s :
  snapshot_reads (evs (sell_attempts WALLET attempts sold s)) = [].
Proof.
  revert s. induction attempts as [|a rest IH]; intros s; [reflexivity|].
  rewrite sell_attempts_step.
  destruct (res (sell_all_tcg WALLET s)).
  - apply sell_all_tcg_snapshot_reads.
  - destruct (a <? 3); cbn [prepend evs];
      rewrite !snapshot_reads_app, sell_all_tcg_snapshot_reads, IH;
      reflexivity.
Qed.

(** Whatever happens to a token, its snapshot was asked for, once. *)
Lemma per_token_snapshot_reads symbol addr mon sold s :
  snapshot_reads (evs (per_token WALLET symbol addr mon sold s)) = [addr].
Proof.
  pose proof (fetch_price_snapshot_reads symbol addr mon s) as R.
  destruct (res (fetch_price WALLET symbol addr mon s)) as [mcap|e] eqn:H.
  - destruct (trigger symbol sold mcap) eqn:C.
    + destruct (per_token_triggered _ _ _ _ _ _ H C) as (b & _ & ->).
      cbn [evs]. rewrite snapshot_reads_app, R. cbn [snapshot_reads app].
      rewrite snapshot_reads_app, sell_attempts_snapshot_reads.
      destruct b; reflexivity.
    + rewrite (per_token_untriggered _ _ _ _ _ _ H C). exact R.
  - rewrite (per_token_skipped _ _ _ _ _ _ H). cbn [evs].
    rewrite snapshot_reads_app, R. reflexivity.
Qed.

(** ** One cycle *)

Lemma bind_assoc {A B C} (m : M W A) (k1 : A -> M W B) (k2 : B -> M W C) s :
  bind (bind m k1) k2 s = bind m (fun a => bind (k1 a) k2) s.
Proof.
  unfold bind. destruct (res (m s)) as [a|e]; cbn [res st evs]; [|reflexivity].
  destruct (res (k1 a (st (m s)))); cbn [res st evs];
    rewrite ?app_assoc; reflexivity.
Qed.

Lemma refresh_price_total l s : exists mon, res (refresh_price l s) = Ok mon.
Proof.
  unfold refresh_price. rewrite try_then.
  destruct (res (get_mon_usd_price s)) as [p|e].
  - exists p. reflexivity.
  - exists (mon_usd l). reflexivity.
Qed.

Lemma refresh_price_quiet l :
  emits (W:=W) (fun e => bystander e && no_snapshot_read e) (refresh_price l).
Proof. unfold refresh_price, get_mon_usd_price. emits_walk. Qed.

Lemma forallb_and_l {A} (p q : A -> bool) l :
  forallb (fun x => p x && q x) l = true -> forallb p l = true.
Proof. apply forallb_weaken. intros x H. apply andb_prop in H. tauto. Qed.

Lemma forallb_and_r {A} (p q : A -> bool) l :
  forallb (fun x => p x && q x) l = true -> forallb q l = true.
Proof. apply forallb_weaken. intros x H. apply andb_prop in H. tauto. Qed.

(** A cycle, cut at its tokens: the price refresh, the cycle line, TCG,
    FIRE, MONA, the blank line and the poll sleep.  Only TCG can change the
    flag. *)
(** A cycle is the price refresh, then the body of the token loop for
    TCG, FIRE and MONA in this order, each entered where the one before
    left off, whatever happened in it; only TCG's can change the flag. *)
Lemma cycle_bodies l s :
  exists (mon : pyfloat) (b : bool),
    res (refresh_price l s) = Ok mon /\
    let tcg := per_token WALLET "TCG" tcg_address mon (tcg_sold l)
                 (st (refresh_price l s)) in
    let fire := per_token WALLET "FIRE" fire_address mon b (st tcg) in
    let mona := per_token WALLET "MONA" mona_address mon b (st fire) in
    res tcg = Ok b /\ res fire = Ok b /\ res mona = Ok b /\
    res (cycle WALLET l s) = Ok {| tcg_sold := b; mon_usd := mon |} /\
    st (cycle WALLET l s) = after_sleep POLL_INTERVAL (st mona) /\
    evs (cycle WALLET l s) =
      evs (refresh_price l s) ++
      EvPrint (MsgCycle mon) :: evs tcg ++ evs fire ++ evs mona ++
      [EvPrint MsgBlank; EvSleep POLL_INTERVAL].
Proof.
  destruct (refresh_price_total l s) as [mon Hmon].
  set (s0 := st (refresh_price l s)).
  destruct (per_token_total "TCG" tcg_address mon (tcg_sold l) s0) as [b Hb].
  exists mon, b. split; [exact Hmon|]. fold s0. intros o1 o2 o3.
  destruct (per_token_idle "FIRE" fire_address mon b (st o1) eq_refl)
    as [H2 _].
  destruct (per_token_idle "MONA" mona_address mon b (st o2) eq_refl)
    as [H3 _].
  fold o2 in H2. fold o3 in H3. fold o1 in Hb.
  assert (E : cycle WALLET l s =
              {| res := Ok {| tcg_sold := b; mon_usd := mon |};
                 st := after_sleep POLL_INTERVAL (st o3);
                 evs := evs (refresh_price l s) ++
                        EvPrint (MsgCycle mon) :: evs o1 ++ evs o2 ++
                        evs o3 ++ [EvPrint MsgBlank; EvSleep POLL_INTERVAL] |}).
  { unfold cycle. rewrite (bind_ok _ _ _ mon Hmon). fold s0.
    rewrite print_then. cbn [for_tokens TOKENS].
    rewrite bind_assoc, (bind_ok _ _ _ b Hb). fold o1.
    rewrite bind_assoc, (bind_ok _ _ _ b H2). fold o2.
    rewrite bind_assoc, (bind_ok _ _ _ b H3). fold o3.
    rewrite ret_then, print_then, sleep_then.
    unfold prepend, ret. cbn [res st evs app].
    rewrite <- ?app_assoc. reflexivity. }
  rewrite E. cbn [res st evs]. repeat split; assumption || reflexivity.
Qed.

Lemma cycle_anatomy l s :
  exists (mon : pyfloat) (b : bool) (fire mona : list event),
    res (refresh_price l s) = Ok mon /\
    res (per_token WALLET "TCG" tcg_address mon (tcg_sold l)
           (st (refresh_price l s))) = Ok b /\
    res (cycle WALLET l s) = Ok {| tcg_sold := b; mon_usd := mon |} /\
    evs (cycle WALLET l s) =
      evs (refresh_price l s) ++
      EvPrint (MsgCycle mon) ::
      evs (per_token WALLET "TCG" tcg_address mon (tcg_sold l)
             (st (refresh_price l s))) ++
      fire ++ mona ++ [EvPrint MsgBlank; EvSleep POLL_INTERVAL] /\
    forallb bystander fire = true /\
    forallb bystander mona = true /\
    snapshot_reads fire = [fire_address] /\
    snapshot_reads mona = [mona_address].
Proof.
  destruct (refresh_price_total l s) as [mon Hmon].
  set (s0 := st (refresh_price l s)).
  destruct (per_token_total "TCG" tcg_address mon (tcg_sold l) s0) as [b Hb].
  set (o1 := per_token WALLET "TCG" tcg_address mon (tcg_sold l) s0) in *.
  set (o2 := per_token WALLET "FIRE" fire_address mon b (st o1)).
  destruct (per_token_idle "FIRE" fire_address mon b (st o1) eq_refl)
    as [H2 Q2].
  set (o3 := per_token WALLET "MONA" mona_address mon b (st o2)).
  destruct (per_token_idle "MONA" mona_address mon b (st o2) eq_refl)
    as [H3 Q3].
  exists mon, b, (evs o2), (evs o3).
  assert (E : cycle WALLET l s =
              {| res := Ok {| tcg_sold := b; mon_usd := mon |};
                 st := after_sleep POLL_INTERVAL (st o3);
                 evs := evs (refresh_price l s) ++
                        EvPrint (MsgCycle mon) :: evs o1 ++ evs o2 ++
                        evs o3 ++ [EvPrint MsgBlank; EvSleep POLL_INTERVAL] |}).
  { unfold cycle. rewrite (bind_ok _ _ _ mon Hmon). fold s0.
    rewrite print_then. cbn [for_tokens TOKENS].
    rewrite bind_assoc, (bind_ok _ _ _ b Hb). fold o1.
    rewrite bind_assoc, (bind_ok _ _ _ b H2). fold o2.
    rewrite bind_assoc, (bind_ok _ _ _ b H3). fold o3.
    rewrite ret_then, print_then, sleep_then.
    unfold prepend, ret. cbn [res st evs app].
    rewrite <- ?app_assoc. reflexivity. }
  rewrite E. cbn [res evs].
  repeat split; auto.
  - apply per_token_snapshot_reads.
  - apply per_token_snapshot_reads.
Qed.

(** ** Completed sells *)

Lemma settled_app_quiet l1 l2 :
  settled l1 = true -> forallb no_sell_activity l2 = true ->
  settled (l1 ++ l2) = true.
Proof.
  intros H1 H2. induction l1 as [|e l1 IH]; cbn [settled app] in *.
  - revert H2. clear. induction l2 as [|e l2 IH]; [reflexivity|].
    cbn [forallb settled]. intros H. apply andb_prop in H as [_ H].
    destruct (sell_completed e); auto.
  - destruct (sell_completed e); [|auto].
    rewrite forallb_app, H1, H2. reflexivity.
Qed.

Lemma settled_app_pending l1 l2 :
  forallb pending l1 = true -> settled l2 = true -> settled (l1 ++ l2) = true.
Proof.
  intros H1 H2. induction l1 as [|e l1 IH]; cbn [settled app forallb] in *.
  - exact H2.
  - apply andb_prop in H1 as [He H1]. unfold pending in He.
    destruct (sell_completed e); [discriminate He|auto].
Qed.

Lemma pending_settled l : forallb pending l = true -> settled l = true.
Proof.
  intros H. rewrite <- (app_nil_r l). apply settled_app_pending; auto.
Qed.

Lemma settled_spec l before e after :
  settled l = true -> l = before ++ e :: after -> sell_completed e = true ->
  forallb no_sell_activity after = true.
Proof.
  intros H -> He. induction before as [|x before IH]; cbn [settled app] in H.
  - rewrite He in H. exact H.
  - destruct (sell_completed x); [|auto].
    rewrite forallb_app in H. apply andb_prop in H as [_ H].
    cbn [forallb] in H. apply andb_prop in H. tauto.
Qed.

Lemma bystander_pending l : forallb bystander l = true -> forallb pending l = true.
Proof.
  apply forallb_weaken. intros e H. unfold bystander in H.
  apply andb_prop in H. tauto.
Qed.

Lemma bystander_no_sell_activity l :
  forallb bystander l = true -> forallb no_sell_activity l = true.
Proof.
  apply forallb_weaken. intros e H. unfold bystander in H.
  apply andb_prop in H as [H _]. apply andb_prop in H. tauto.
Qed.

Lemma bystander_no_ctrl l :
  forallb bystander l = true -> forallb no_ctrl l = true.
Proof.
  apply forallb_weaken. intros e H. unfold bystander in H.
  apply andb_prop in H as [H _]. apply andb_prop in H. tauto.
Qed.

(** A run of the sell executor that raises printed neither "SOLD" nor
    "nothing to sell"; one that returns printed it last. *)
Lemma sell_all_tcg_completion s :
  match res (sell_all_tcg WALLET s) with
  | Ok _ => settled (evs (sell_all_tcg WALLET s)) = true
  | Raise _ => forallb pending (evs (sell_all_tcg WALLET s)) = true
  end.
Proof.
  unfold sell_all_tcg. rewrite emit_then, tokens_get_TCG.
  run_sell; reflexivity.
Qed.

Lemma sell_attempts_completion attempts s :
  let o := sell_attempts WALLET attempts false s in
  res o = Ok true /\ settled (evs o) = true \/
  res o = Ok false /\ forallb pending (evs o) = true.
Proof.
  revert s. induction attempts as [|a rest IH]; intros s; cbv zeta.
  - right. auto.
  - rewrite sell_attempts_step.
    pose proof (sell_all_tcg_completion s) as C.
    destruct (res (sell_all_tcg WALLET s)) as [u|e].
    + left. auto.
    + destruct (a <? 3); cbn [prepend res evs].
      * destruct (IH (after_sleep 3 (st (sell_all_tcg WALLET s))))
          as [[R S]|[R S]]; [left|right]; split; auto.
        -- apply settled_app_pending; [|exact S].
           rewrite forallb_app, C. reflexivity.
        -- rewrite !forallb_app, C, S. reflexivity.
      * destruct (IH (st (sell_all_tcg WALLET s)))
          as [[R S]|[R S]]; [left|right]; split; auto.
        -- apply settled_app_pending; [|exact S].
           rewrite forallb_app, C. reflexivity.
        -- rewrite !forallb_app, C, S. reflexivity.
Qed.

Lemma per_token_completion symbol addr mon s :
  let o := per_token WALLET symbol addr mon false s in
  res o = Ok true /\ settled (evs o) = true \/
  res o = Ok false /\ forallb pending (evs o) = true.
Proof.
  cbv zeta.
  pose proof (bystander_pending _ (fetch_price_quiet symbol addr mon s)) as Q.
  destruct (res (fetch_price WALLET symbol addr mon s)) as [mcap|e] eqn:H.
  - destruct (trigger symbol false mcap) eqn:C.
    + destruct (per_token_triggered _ _ _ _ _ _ H C) as (b & Hb & ->).
      cbn [res evs].
      destruct (sell_attempts_completion [1; 2; 3]
                  (st (fetch_price WALLET symbol addr mon s)))
        as [[R S]|[R S]]; rewrite R in Hb; injection Hb as <-.
      * left. split; [reflexivity|].
        apply settled_app_pending; [exact Q|].
        cbn [settled sell_completed]. rewrite app_nil_r. exact S.
      * right. split; [reflexivity|].
        rewrite forallb_app, Q. cbn [forallb]. rewrite forallb_app, S.
        reflexivity.
    + rewrite (per_token_untriggered _ _ _ _ _ _ H C). right. auto.
  - rewrite (per_token_skipped _ _ _ _ _ _ H). right. cbn [res evs].
    rewrite forallb_app, Q. auto.
Qed.

Lemma cycle_total l s : exists l', res (cycle WALLET l s) = Ok l'.
Proof.
  destruct (cycle_anatomy l s) as (mon & b & f & m & _ & _ & R & _).
  eauto.
Qed.

(** A cycle entered with the flag set leaves it set and keeps away from
    the sell executor. *)
Lemma cycle_sold l s :
  tcg_sold l = true ->
  exists l', res (cycle WALLET l s) = Ok l' /\ tcg_sold l' = true /\
             forallb no_sell_activity (evs (cycle WALLET l s)) = true.
Proof.
  intros Hsold.
  destruct (cycle_anatomy l s)
    as (mon & b & f & m & Hmon & Hb & R & E & Qf & Qm & _).
  rewrite Hsold in *.
  destruct (per_token_idle "TCG" tcg_address mon true
              (st (refresh_price l s)) eq_refl) as [Hb' Qt].
  rewrite Hb' in Hb. injection Hb as <-.
  eexists. split; [exact R|]. split; [reflexivity|].
  rewrite E. rewrite forallb_app.
  rewrite (bystander_no_sell_activity _
             (forallb_and_l _ _ _ (refresh_price_quiet l s))).
  cbn [forallb andb no_sell_activity is_sell_activity negb].
  rewrite !forallb_app.
  rewrite (bystander_no_sell_activity _ Qt), (bystander_no_sell_activity _ Qf),
    (bystander_no_sell_activity _ Qm).
  reflexivity.
Qed.

(** A cycle entered with the flag clear either sets it, and then nothing
    of the sell executor follows the completed sell, or leaves it clear,
    and then no sell completed. *)
Lemma cycle_completion l s :
  tcg_sold l = false ->
  exists l', res (cycle WALLET l s) = Ok l' /\
    (tcg_sold l' = true /\ settled (evs (cycle WALLET l s)) = true \/
     tcg_sold l' = false /\ forallb pending (evs (cycle WALLET l s)) = true).
Proof.
  intros Hsold.
  destruct (cycle_anatomy l s)
    as (mon & b & f & m & Hmon & Hb & R & E & Qf & Qm & _).
  rewrite Hsold in *.
  pose proof (bystander_pending _
                (forallb_and_l _ _ _ (refresh_price_quiet l s))) as Q0.
  eexists. split; [exact R|]. cbn [tcg_sold]. rewrite E.
  destruct (per_token_completion "TCG" tcg_address mon (st (refresh_price l s)))
    as [[Rt S]|[Rt S]]; rewrite Rt in Hb; injection Hb as <-; [left|right];
    (split; [reflexivity|]).
  - apply settled_app_pending; [exact Q0|].
    cbn [settled sell_completed]. apply settled_app_quiet; [exact S|].
    rewrite !forallb_app.
    rewrite (bystander_no_sell_activity _ Qf), (bystander_no_sell_activity _ Qm).
    reflexivity.
  - rewrite forallb_app, Q0. cbn [forallb pending sell_completed negb andb].
    rewrite !forallb_app, S, (bystander_pending _ Qf), (bystander_pending _ Qm).
    reflexivity.
Qed.

(** ** Any number of cycles *)

Lemma poll_step n l s l' :
  res (cycle WALLET l s) = Ok l' ->
  poll WALLET (S n) l s =
  prepend (evs (cycle WALLET l s)) (poll WALLET n l' (st (cycle WALLET l s))).
Proof. intros H. cbn [poll]. apply bind_ok. exact H. Qed.

Lemma poll_total n l s : exists l', res (poll WALLET n l s) = Ok l'.
Proof.
  revert l s. induction n as [|n IH]; intros l s.
  - exists l. reflexivity.
  - destruct (cycle_total l s) as [l1 H1].
    rewrite (poll_step _ _ _ _ H1). apply IH.
Qed.

Lemma poll_plus k m l s l' :
  res (poll WALLET k l s) = Ok l' ->
  poll WALLET (k + m) l s =
  prepend (evs (poll WALLET k l s))
          (poll WALLET m l' (st (poll WALLET k l s))).
Proof.
  revert l s. induction k as [|k IH]; intros l s H.
  - cbn [poll ret res] in H. injection H as <-.
    cbn [Nat.add poll ret st evs]. rewrite prepend_nil. reflexivity.
  - destruct (cycle_total l s) as [l1 H1].
    rewrite (poll_step _ _ _ _ H1) in *. cbn [prepend res st evs] in *.
    cbn [Nat.add]. rewrite (poll_step _ _ _ _ H1), (IH _ _ H).
    rewrite prepend_prepend. reflexivity.
Qed.

Lemma poll_sold n l s :
  tcg_sold l = true ->
  exists l', res (poll WALLET n l s) = Ok l' /\ tcg_sold l' = true /\
             forallb no_sell_activity (evs (poll WALLET n l s)) = true.
Proof.
  revert l s. induction n as [|n IH]; intros l s Hsold.
  - exists l. auto.
  - destruct (cycle_sold l s Hsold) as (l1 & H1 & S1 & Q1).
    rewrite (poll_step _ _ _ _ H1). cbn [prepend res evs].
    destruct (IH l1 (st (cycle WALLET l s)) S1) as (l' & H' & S' & Q').
    exists l'. rewrite forallb_app, Q1, Q'. auto.
Qed.

Lemma poll_completion n l s :
  tcg_sold l = false ->
  exists l', res (poll WALLET n l s) = Ok l' /\
    (tcg_sold l' = true /\ settled (evs (poll WALLET n l s)) = true \/
     tcg_sold l' = false /\ forallb pending (evs (poll WALLET n l s)) = true).
Proof.
  revert l s. induction n as [|n IH]; intros l s Hsold.
  - exists l. auto.
  - destruct (cycle_completion l s Hsold) as (l1 & H1 & [[S1 Q1]|[S1 Q1]]);
      rewrite (poll_step _ _ _ _ H1); cbn [prepend res evs].
    + destruct (poll_sold n l1 (st (cycle WALLET l s)) S1) as (l' & H' & S' & Q').
      exists l'. split; [exact H'|]. left. split; [exact S'|].
      apply settled_app_quiet; assumption.
    + destruct (IH l1 (st (cycle WALLET l s)) S1) as (l' & H' & [[S' Q']|[S' Q']]);
        exists l'; (split; [exact H'|]); [left|right]; (split; [exact S'|]).
      * apply settled_app_pending; assumption.
      * rewrite forallb_app, Q1, Q'. reflexivity.
Qed.

(** C1. Take any execution of the polling loop and cut it after [k]
    cycles.  If [tcg_sold] is set at the cut, the [m] cycles that follow it
    never enter [sell_all_tcg] and submit no transaction, whatever market
    caps they read, and the flag stays set.  Over the whole execution, once
    a run of the sell executor has printed its last line and returned
    (which sets the flag), the executor is never entered again. *)
Theorem sold_token_is_never_sold_again :
  forall (k m : nat) (s : store W) (l' : locals),
    res (poll WALLET k initial_locals s) = Ok l' ->
    tcg_sold l' = true ->
    let later := poll WALLET m l' (st (poll WALLET k initial_locals s)) in
    evs (poll WALLET (k + m) initial_locals s) =
      evs (poll WALLET k initial_locals s) ++ evs later /\
    invocations (evs later) = O /\
    submitted (evs later) = [] /\
    (exists l'', res later = Ok l'' /\ tcg_sold l'' = true) /\
    (forall before e after,
        evs (poll WALLET (k + m) initial_locals s) = before ++ e :: after ->
        sell_completed e = true ->
        invocations after = O /\ submitted after = []).
Proof.
  intros k m s l' Hk Hsold later.
  destruct (poll_sold m l' (st (poll WALLET k initial_locals s)) Hsold)
    as (l'' & R & S & Q).
  fold later in R, Q.
  split; [rewrite (poll_plus _ _ _ _ _ Hk); reflexivity|].
  split; [apply quiet_invocations; exact Q|].
  split; [apply quiet_submitted; exact Q|].
  split; [exists l''; auto|].
  intros before e after E He.
  assert (St : settled (evs (poll WALLET (k + m) initial_locals s)) = true).
  { destruct (poll_completion (k + m) initial_locals s eq_refl)
      as (lf & _ & [[_ St]|[_ P]]); [exact St|].
    apply pending_settled. exact P. }
  pose proof (settled_spec _ _ _ _ St E He) as Qa.
  split; [apply quiet_invocations|apply quiet_submitted]; exact Qa.
Qed.

(** ** A cycle in which the trigger fires *)

Lemma tcg_snapshot_eq l s mon :
  res (refresh_price l s) = Ok mon ->
  tcg_snapshot WALLET l s =
  prepend (evs (refresh_price l s) ++ [EvPrint (MsgCycle mon)])
          (fetch_price WALLET "TCG" tcg_address mon (st (refresh_price l s))).
Proof.
  intros H. unfold tcg_snapshot. rewrite (bind_ok _ _ _ mon H), print_then.
  rewrite prepend_prepend. reflexivity.
Qed.

Lemma tcg_snapshot_quiet l s :
  forallb bystander (evs (tcg_snapshot WALLET l s)) = true.
Proof.
  destruct (refresh_price_total l s) as [mon Hmon].
  rewrite (tcg_snapshot_eq _ _ _ Hmon). cbn [prepend evs].
  rewrite !forallb_app, (forallb_and_l _ _ _ (refresh_price_quiet l s)).
  rewrite (fetch_price_quiet "TCG" tcg_address mon). reflexivity.
Qed.

Lemma cycle_triggered l s mcap :
  tcg_sold l = false ->
  res (tcg_snapshot WALLET l s) = Ok mcap ->
  float_ge_int mcap TCG_SELL_AT = true ->
  let attempts :=
    sell_attempts WALLET [1; 2; 3] false (st (tcg_snapshot WALLET l s)) in
  exists (mon : pyfloat) (b : bool) (fire mona : list event),
    res attempts = Ok b /\
    res (cycle WALLET l s) = Ok {| tcg_sold := b; mon_usd := mon |} /\
    evs (cycle WALLET l s) =
      evs (tcg_snapshot WALLET l s) ++
      EvPrint (MsgTrigger mcap) :: evs attempts ++
      (if b then [] else [EvPrint MsgAllFailed]) ++
      fire ++ mona ++ [EvPrint MsgBlank; EvSleep POLL_INTERVAL] /\
    forallb bystander fire = true /\
    forallb bystander mona = true.
Proof.
  intros Hsold Hsnap Hcap attempts.
  destruct (cycle_anatomy l s)
    as (mon & b & f & m & Hmon & Hb & R & E & Qf & Qm & _).
  rewrite (tcg_snapshot_eq _ _ _ Hmon) in Hsnap.
  unfold attempts. rewrite (tcg_snapshot_eq _ _ _ Hmon).
  cbn [prepend res st evs] in *. rewrite Hsold in *.
  assert (C : trigger "TCG" false mcap = true)
    by (unfold trigger; rewrite Hcap; reflexivity).
  destruct (per_token_triggered _ _ _ _ _ _ Hsnap C) as (b' & Hb' & Ep).
  rewrite Ep in Hb, E. cbn [res evs] in Hb, E. injection Hb as ->.
  exists mon, b, f, m.
  split; [exact Hb'|]. split; [exact R|]. split; [|auto].
  rewrite E. repeat (rewrite <- app_assoc; cbn [app]). reflexivity.
Qed.

Lemma cycle_triggered_skeleton l s mcap :
  tcg_sold l = false ->
  res (tcg_snapshot WALLET l s) = Ok mcap ->
  float_ge_int mcap TCG_SELL_AT = true ->
  exists l', res (cycle WALLET l s) = Ok l' /\
             retry_outcome (tcg_sold l') (skeleton (evs (cycle WALLET l s))).
Proof.
  intros Hsold Hsnap Hcap.
  destruct (cycle_triggered l s mcap Hsold Hsnap Hcap)
    as (mon & b & f & m & Hb & R & E & Qf & Qm).
  eexists. split; [exact R|]. cbn [tcg_sold]. rewrite E.
  rewrite skeleton_app, (quiet_skeleton _ (bystander_no_ctrl _
                                             (tcg_snapshot_quiet l s))).
  cbn [app skeleton ctrl_of]. rewrite !skeleton_app.
  rewrite (quiet_skeleton _ (bystander_no_ctrl _ Qf)).
  rewrite (quiet_skeleton _ (bystander_no_ctrl _ Qm)).
  assert (Hf : skeleton (if b then [] else [EvPrint MsgAllFailed]) = [])
    by (destruct b; reflexivity).
  rewrite Hf. cbn [app skeleton ctrl_of POLL_INTERVAL].
  unfold retry_outcome.
  destruct (sell_attempts_skeleton (st (tcg_snapshot WALLET l s)))
    as [[Rb Sk]|[Rb Sk]]; cbv zeta in Rb, Sk; rewrite Rb in Hb;
    injection Hb as <-.
  - left. split; [reflexivity|].
    destruct Sk as [->| [->| ->]]; cbn [app]; auto.
  - right. rewrite Sk. auto.
Qed.

Lemma invocations_skeleton l :
  invocations l = List.length (filter is_invoke (skeleton l)).
Proof.
  induction l as [|e l IH]; [reflexivity|].
  destruct e as [| | | | | | | | | | | | |m]; try destruct m;
    cbn [invocations skeleton ctrl_of filter is_invoke List.length];
    rewrite IH; reflexivity.
Qed.

(** A triggered cycle runs the retry policy: its events are the snapshot
    of TCG, the trigger line, the attempts of the policy, the line "all 3
    attempts failed" if none returned, then the two other tokens and the
    poll sleep; it ends with the flag the policy gives. *)
Lemma cycle_triggered_policy l s mcap :
  tcg_sold l = false ->
  res (tcg_snapshot WALLET l s) = Ok mcap ->
  float_ge_int mcap TCG_SELL_AT = true ->
  let policy := retry_policy WALLET (st (tcg_snapshot WALLET l s)) in
  exists l',
    res (cycle WALLET l s) = Ok l' /\
    tcg_sold l' = snd policy /\
    exists fire mona : list event,
      evs (cycle WALLET l s) =
        evs (tcg_snapshot WALLET l s) ++
        EvPrint (MsgTrigger mcap) :: fst policy ++
        (if snd policy then [] else [EvPrint MsgAllFailed]) ++
        fire ++ mona ++ [EvPrint MsgBlank; EvSleep POLL_INTERVAL] /\
      forallb bystander fire = true /\
      forallb bystander mona = true.
Proof.
  intros Hsold Hsnap Hcap policy.
  destruct (cycle_triggered l s mcap Hsold Hsnap Hcap)
    as (mon & b & f & m & Hb & R & E & Qf & Qm).
  cbv zeta in Hb, E.
  destruct (sell_attempts_policy (st (tcg_snapshot WALLET l s))) as [Pr Pe].
  fold policy in Pr, Pe. rewrite Pr in Hb. injection Hb as <-.
  rewrite Pe in E.
  eexists. split; [exact R|]. split; [reflexivity|].
  exists f, m. auto.
Qed.

(** C3. In a cycle where TCG is unsold and its market cap meets the
    trigger, the attempts are those of the retry policy, told from what the
    successive runs of [sell_all_tcg] return: a run that returns is the
    last one and sets [tcg_sold]; a first or second run that raises is
    followed by the line "attempt k/3 failed", a sleep of 3 seconds and the
    next run; a third run that raises is followed by its line only, and
    the flag stays clear.  So [sell_all_tcg] is entered at least once and at
    most three times, and the retry skeleton of the cycle is one of four
    sequences.  If all three attempts fail the flag stays clear, and the
    next cycle whose snapshot meets the trigger runs the same policy
    again. *)
Theorem triggered_cycle_makes_at_most_three_attempts :
  forall (l : locals) (s : store W) (mcap : pyfloat),
    tcg_sold l = false ->
    res (tcg_snapshot WALLET l s) = Ok mcap ->
    float_ge_int mcap TCG_SELL_AT = true ->
    let policy := retry_policy WALLET (st (tcg_snapshot WALLET l s)) in
    exists l',
      res (cycle WALLET l s) = Ok l' /\
      tcg_sold l' = snd policy /\
      (exists fire mona : list event,
         evs (cycle WALLET l s) =
           evs (tcg_snapshot WALLET l s) ++
           EvPrint (MsgTrigger mcap) :: fst policy ++
           (if snd policy then [] else [EvPrint MsgAllFailed]) ++
           fire ++ mona ++ [EvPrint MsgBlank; EvSleep POLL_INTERVAL] /\
         forallb bystander fire = true /\
         forallb bystander mona = true) /\
      retry_outcome (tcg_sold l') (skeleton (evs (cycle WALLET l s))) /\
      (1 <= invocations (evs (cycle WALLET l s)) <= 3)%nat /\
      (tcg_sold l' = false ->
       forall mcap',
         res (tcg_snapshot WALLET l' (st (cycle WALLET l s))) = Ok mcap' ->
         float_ge_int mcap' TCG_SELL_AT = true ->
         let next := cycle WALLET l' (st (cycle WALLET l s)) in
         exists l'',
           res next = Ok l'' /\
           tcg_sold l'' =
             snd (retry_policy WALLET
                    (st (tcg_snapshot WALLET l' (st (cycle WALLET l s))))) /\
           retry_outcome (tcg_sold l'') (skeleton (evs next))).
Proof.
  intros l s mcap Hsold Hsnap Hcap policy.
  destruct (cycle_triggered_policy l s mcap Hsold Hsnap Hcap)
    as (l' & R & F & P).
  destruct (cycle_triggered_skeleton l s mcap Hsold Hsnap Hcap)
    as (l0 & R0 & Sk).
  rewrite R in R0. injection R0 as <-.
  exists l'. split; [exact R|]. split; [exact F|]. split; [exact P|].
  split; [exact Sk|]. split.
  - rewrite invocations_skeleton.
    destruct Sk as [[_ [->| [->| ->]]]|[_ ->]];
      cbn [filter is_invoke List.length]; lia.
  - intros Hsold' mcap' Hsnap' Hcap' next.
    destruct (cycle_triggered_policy l' _ mcap' Hsold' Hsnap' Hcap')
      as (l'' & R' & F' & _).
    destruct (cycle_triggered_skeleton l' _ mcap' Hsold' Hsnap' Hcap')
      as (l1 & R1 & Sk').
    fold next in R', R1, Sk'. rewrite R' in R1. injection R1 as <-.
    exists l''. auto.
Qed.

(** C10. In a cycle where TCG is unsold, its market cap meets the trigger
    and the balance read at the start of [sell_all_tcg] is zero, the
    executor is entered once, nothing is submitted, and the cycle ends with
    [tcg_sold] set.  From then on no cycle enters the executor or submits a
    transaction, whatever balances and market caps are read later. *)
Theorem zero_balance_at_trigger_marks_the_token_sold :
  forall (l : locals) (s : store W) (mcap : pyfloat) (w' : W),
    tcg_sold l = false ->
    res (tcg_snapshot WALLET l s) = Ok mcap ->
    float_ge_int mcap TCG_SELL_AT = true ->
    erc20_balanceOf tcg_address WALLET
      (world (st (tcg_snapshot WALLET l s))) = (Ok 0, w') ->
    exists l',
      res (cycle WALLET l s) = Ok l' /\
      tcg_sold l' = true /\
      invocations (evs (cycle WALLET l s)) = 1%nat /\
      submitted (evs (cycle WALLET l s)) = [] /\
      forall n : nat,
        invocations (evs (poll WALLET n l' (st (cycle WALLET l s)))) = O /\
        submitted (evs (poll WALLET n l' (st (cycle WALLET l s)))) = [].
Proof.
  intros l s mcap w' Hsold Hsnap Hcap Hbal.
  destruct (cycle_triggered l s mcap Hsold Hsnap Hcap)
    as (mon & b & f & m & Hb & R & E & Qf & Qm).
  cbv zeta in Hb, E.
  rewrite sell_attempts_step in Hb, E.
  rewrite (sell_all_tcg_nothing_to_sell _ _ Hbal) in Hb, E.
  cbn [res evs] in Hb, E. injection Hb as <-.
  pose proof (bystander_no_sell_activity _ (tcg_snapshot_quiet l s)) as Q0.
  apply bystander_no_sell_activity in Qf, Qm.
  eexists. split; [exact R|]. cbn [tcg_sold]. split; [reflexivity|].
  rewrite E. split; [|split].
  - rewrite invocations_app, (quiet_invocations _ Q0).
    cbn [invocations app]. rewrite !invocations_app.
    rewrite (quiet_invocations _ Qf), (quiet_invocations _ Qm). reflexivity.
  - rewrite submitted_app, (quiet_submitted _ Q0).
    cbn [submitted app]. rewrite !submitted_app.
    rewrite (quiet_submitted _ Qf), (quiet_submitted _ Qm). reflexivity.
  - intros n.
    destruct (poll_sold n {| tcg_sold := true; mon_usd := mon |}
                (st (cycle WALLET l s)) eq_refl) as (l'' & _ & _ & Q).
    split; [apply quiet_invocations|apply quiet_submitted]; exact Q.
Qed.

(** ** A cycle in which the trigger does not fire *)

Lemma per_token_quiet symbol addr mon sold s :
  (forall mcap, res (fetch_price WALLET symbol addr mon s) = Ok mcap ->
                trigger symbol sold mcap = false) ->
  res (per_token WALLET symbol addr mon sold s) = Ok sold /\
  forallb bystander (evs (per_token WALLET symbol addr mon sold s)) = true.
Proof.
  intros H.
  pose proof (fetch_price_quiet symbol addr mon s) as Q.
  destruct (res (fetch_price WALLET symbol addr mon s)) as [mcap|e] eqn:R.
  - rewrite (per_token_untriggered _ _ _ _ _ mcap R (H mcap eq_refl)). auto.
  - rewrite (per_token_skipped _ _ _ _ _ _ R). cbn [res evs].
    rewrite forallb_app, Q. auto.
Qed.

Lemma trigger_fires_or_not l s :
  trigger_fires WALLET l s \/
  (tcg_sold l = true \/
   forall mcap, res (tcg_snapshot WALLET l s) = Ok mcap ->
                float_ge_int mcap TCG_SELL_AT = false).
Proof.
  unfold trigger_fires.
  destruct (tcg_sold l); [right; left; reflexivity|].
  destruct (res (tcg_snapshot WALLET l s)) as [mcap|e].
  - destruct (float_ge_int mcap TCG_SELL_AT) eqn:C.
    + left. eauto.
    + right. right. intros m H. injection H as <-. exact C.
  - right. right. intros m H. discriminate H.
Qed.

(** A cycle in which the trigger does not fire: a run of bystanders, the
    blank line and the poll sleep; the flag is kept. *)
Lemma cycle_untriggered l s :
  (tcg_sold l = true \/
   forall mcap, res (tcg_snapshot WALLET l s) = Ok mcap ->
                float_ge_int mcap TCG_SELL_AT = false) ->
  exists l' pre,
    res (cycle WALLET l s) = Ok l' /\
    tcg_sold l' = tcg_sold l /\
    evs (cycle WALLET l s) = pre ++ [EvPrint MsgBlank; EvSleep POLL_INTERVAL] /\
    forallb bystander pre = true.
Proof.
  intros H.
  destruct (cycle_anatomy l s)
    as (mon & b & f & m & Hmon & Hb & R & E & Qf & Qm & _).
  assert (T : res (per_token WALLET "TCG" tcg_address mon (tcg_sold l)
                     (st (refresh_price l s))) = Ok (tcg_sold l) /\
              forallb bystander
                (evs (per_token WALLET "TCG" tcg_address mon (tcg_sold l)
                        (st (refresh_price l s)))) = true).
  { apply per_token_quiet. intros mcap Hf. unfold trigger.
    destruct H as [H|H].
    - rewrite H. reflexivity.
    - rewrite (H mcap); [apply andb_false_r|].
      rewrite (tcg_snapshot_eq _ _ _ Hmon). exact Hf. }
  destruct T as [Rt Qt]. rewrite Rt in Hb. injection Hb as <-.
  eexists. eexists. split; [exact R|]. split; [reflexivity|].
  split.
  - rewrite E.
    change (EvPrint (MsgCycle mon) :: ?x) with ([EvPrint (MsgCycle mon)] ++ x).
    rewrite !app_assoc. reflexivity.
  - rewrite !forallb_app, Qt, Qf, Qm.
    rewrite (forallb_and_l _ _ _ (refresh_price_quiet l s)). reflexivity.
Qed.

(** The sell executor is entered in a cycle exactly when the trigger
    fires in it. *)
Lemma cycle_invokes_iff_trigger_fires l s :
  (1 <= invocations (evs (cycle WALLET l s)))%nat <-> trigger_fires WALLET l s.
Proof.
  destruct (trigger_fires_or_not l s) as [T|N].
  - split; [intros _; exact T|]. intros _.
    destruct T as (Hs & mcap & Hm & Hc).
    destruct (cycle_triggered_skeleton l s mcap Hs Hm Hc) as (l' & _ & Sk).
    rewrite invocations_skeleton.
    destruct Sk as [[_ [->| [->| ->]]]|[_ ->]];
      cbn [filter is_invoke List.length]; lia.
  - destruct (cycle_untriggered l s N) as (l' & pre & R & Hf & E & Q).
    assert (I0 : invocations (evs (cycle WALLET l s)) = O).
    { rewrite E, invocations_app.
      rewrite (quiet_invocations _ (bystander_no_sell_activity _ Q)).
      reflexivity. }
    split.
    + rewrite I0. lia.
    + intros (Hs & mcap & Hm & Hc). destruct N as [N|N].
      * rewrite Hs in N. discriminate N.
      * rewrite (N mcap Hm) in Hc. discriminate Hc.
Qed.

(** ** Failures of a market-data read *)

Lemma cycle_snapshot_reads l s :
  snapshot_reads (evs (cycle WALLET l s)) =
  [tcg_address; fire_address; mona_address].
Proof.
  destruct (cycle_anatomy l s)
    as (mon & b & f & m & Hmon & Hb & R & E & Qf & Qm & Rf & Rm).
  rewrite E, snapshot_reads_app.
  rewrite (quiet_snapshot_reads _ (forallb_and_r _ _ _ (refresh_price_quiet l s))).
  cbn [app snapshot_reads]. rewrite !snapshot_reads_app.
  rewrite per_token_snapshot_reads, Rf, Rm. reflexivity.
Qed.

Lemma poll_snapshot_reads n l s :
  snapshot_reads (evs (poll WALLET n l s)) =
  List.concat (repeat [tcg_address; fire_address; mona_address] n).
Proof.
  revert l s. induction n as [|n IH]; intros l s; [reflexivity|].
  destruct (cycle_total l s) as [l1 H1].
  rewrite (poll_step _ _ _ _ H1). cbn [prepend evs repeat List.concat].
  rewrite snapshot_reads_app, cycle_snapshot_reads, IH. reflexivity.
Qed.

(** C9. A market-data read that raises costs its token this cycle and
    nothing else: the body of the loop over the tokens prints the error
    line and goes on, from where the read stopped, with the flag unchanged.
    A read that returns is evaluated: if the trigger holds for it the
    trigger line and the sell attempts follow, otherwise nothing does.  A
    cycle is the price refresh and then the bodies for TCG, FIRE and MONA
    in this order, each entered where the one before left off, whatever
    failed in it; so the sell executor is entered exactly when TCG is
    unsold and its market cap was read and meets the threshold.  Every
    cycle asks for the snapshot of each of the three tokens once and ends
    normally, and so does every cycle of any number of cycles: no exception
    leaves the loop. *)
Theorem failed_read_skips_only_that_token :
  forall (n : nat) (l : locals) (s : store W),
    (forall symbol addr mon sold s0 e,
        res (fetch_price WALLET symbol addr mon s0) = Raise e ->
        res (per_token WALLET symbol addr mon sold s0) = Ok sold /\
        evs (per_token WALLET symbol addr mon sold s0) =
          evs (fetch_price WALLET symbol addr mon s0) ++
          [EvPrint (MsgTokenError symbol e)] /\
        st (per_token WALLET symbol addr mon sold s0) =
          st (fetch_price WALLET symbol addr mon s0)) /\
    (forall symbol addr mon sold s0 mcap,
        res (fetch_price WALLET symbol addr mon s0) = Ok mcap ->
        let attempts :=
          sell_attempts WALLET [1; 2; 3] sold
            (st (fetch_price WALLET symbol addr mon s0)) in
        if trigger symbol sold mcap then
          exists b,
            res attempts = Ok b /\
            res (per_token WALLET symbol addr mon sold s0) = Ok b /\
            evs (per_token WALLET symbol addr mon sold s0) =
              evs (fetch_price WALLET symbol addr mon s0) ++
              EvPrint (MsgTrigger mcap) :: evs attempts ++
              (if b then [] else [EvPrint MsgAllFailed])
        else
          res (per_token WALLET symbol addr mon sold s0) = Ok sold /\
          evs (per_token WALLET symbol addr mon sold s0) =
            evs (fetch_price WALLET symbol addr mon s0) /\
          st (per_token WALLET symbol addr mon sold s0) =
            st (fetch_price WALLET symbol addr mon s0)) /\
    (exists (mon : pyfloat) (b : bool),
        res (refresh_price l s) = Ok mon /\
        let tcg := per_token WALLET "TCG" tcg_address mon (tcg_sold l)
                     (st (refresh_price l s)) in
        let fire := per_token WALLET "FIRE" fire_address mon b (st tcg) in
        let mona := per_token WALLET "MONA" mona_address mon b (st fire) in
        res tcg = Ok b /\ res fire = Ok b /\ res mona = Ok b /\
        res (cycle WALLET l s) = Ok {| tcg_sold := b; mon_usd := mon |} /\
        st (cycle WALLET l s) = after_sleep POLL_INTERVAL (st mona) /\
        evs (cycle WALLET l s) =
          evs (refresh_price l s) ++
          EvPrint (MsgCycle mon) :: evs tcg ++ evs fire ++ evs mona ++
          [EvPrint MsgBlank; EvSleep POLL_INTERVAL]) /\
    ((1 <= invocations (evs (cycle WALLET l s)))%nat <->
     trigger_fires WALLET l s) /\
    (exists l', res (cycle WALLET l s) = Ok l') /\
    snapshot_reads (evs (cycle WALLET l s)) = map snd TOKENS /\
    (exists l', res (poll WALLET n l s) = Ok l') /\
    snapshot_reads (evs (poll WALLET n l s)) =
      List.concat (repeat (map snd TOKENS) n).
Proof.
  intros n l s.
  split; [|split; [|split; [|split; [|split; [|split; [|split]]]]]].
  - intros symbol addr mon sold s0 e H.
    rewrite (per_token_skipped _ _ _ _ _ _ H). auto.
  - intros symbol addr mon sold s0 mcap H attempts.
    destruct (trigger symbol sold mcap) eqn:C.
    + destruct (per_token_triggered _ _ _ _ _ _ H C) as (b & Hb & E).
      exists b. rewrite E. auto.
    + rewrite (per_token_untriggered _ _ _ _ _ _ H C). auto.
  - apply cycle_bodies.
  - apply cycle_invokes_iff_trigger_fires.
  - apply cycle_total.
  - apply cycle_snapshot_reads.
  - apply poll_total.
  - apply poll_snapshot_reads.
Qed.

(** ** Market cap *)


(** C8. A probe quote of zero tokens does not make the read fail.  The
    reciprocal is guarded: on a zero quote the division, which would raise,
    is not reached and the unit price is 0.  With the supply and the
    balance in the range of a uint256, the read returns a market cap and
    prints an owned value that are both zero when the MON price is finite,
    and both NaN when the MON price is infinite or NaN. *)
Theorem zero_quote_gives_zero_market_cap_and_owned_value :
  forall (s : store W) (symbol : string) (addr : address) (mon : pyfloat)
         (router : address) (supply balance : Z) (w1 w2 w3 : W),
    lens_getAmountOut addr ONE_MON true (world s) = (Ok (router, 0), w1) ->
    erc20_totalSupply addr w1 = (Ok supply, w2) ->
    erc20_balanceOf addr WALLET w2 = (Ok balance, w3) ->
    0 <= supply < 2 ^ 256 ->
    0 <= balance < 2 ^ 256 ->
    (exists e, decimal_div 1 (from_wei 0) = Raise e) /\
    unit_price 0 = 0%Q /\
    exists market_cap_usd wallet_balance_usd : pyfloat,
      res (fetch_price WALLET symbol addr mon s) = Ok market_cap_usd /\
      evs (fetch_price WALLET symbol addr mon s) =
        [ EvGetAmountOut addr ONE_MON true (Ok (router, 0));
          EvTotalSupply addr (Ok supply);
          EvBalanceOf addr WALLET (Ok balance);
          EvPrint (MsgToken symbol market_cap_usd wallet_balance_usd) ] /\
      (is_finite mon = true ->
       is_zero market_cap_usd = true /\ is_zero wallet_balance_usd = true) /\
      (is_finite mon = false ->
       is_nan market_cap_usd = true /\ is_nan wallet_balance_usd = true).
Proof.
  intros s symbol addr mon router supply balance w1 w2 w3 Hq Hs Hb Rs Rb.
  split; [apply reciprocal_of_zero_raises|]. split; [reflexivity|].
  rewrite (fetch_price_returns s symbol addr mon _ _ _ _ _ _ _ Hq Hs Hb).
  cbv zeta. cbn [res evs]. rewrite unit_price_zero.
  change (float_of_decimal 0) with (S754_zero false).
  pose proof (float_of_wei_finite supply Rs) as Fs.
  pose proof (float_of_wei_finite balance Rb) as Fb.
  assert (Zs : is_zero (float_mul (S754_zero false)
                          (float_of_decimal (from_wei supply))) = true)
    by (apply float_mul_zero_l; [reflexivity|exact Fs]).
  assert (Zb : is_zero (float_mul (float_of_decimal (from_wei balance))
                          (S754_zero false)) = true)
    by (apply float_mul_zero_r; [exact Fb|reflexivity]).
  eexists _, _. split; [reflexivity|]. split; [reflexivity|]. split.
  - intros Fm. split; apply float_mul_zero_l; assumption.
  - intros Fm. split; apply float_mul_zero_nonfinite; assumption.
Qed.

(** * Further facts *)

(** ** Runs without handlers stop at their first failed call *)

Lemma verdict_returned l :
  verdict l = Some None -> forall e, In e l -> failure_of e = None.
Proof.
  induction l as [|a l IH]; cbn [verdict In]; [tauto|].
  destruct (failure_of a) eqn:Fa.
  - destruct l; discriminate.
  - intros H e [<-|He]; auto.
Qed.

Lemma verdict_raised l x :
  verdict l = Some (Some x) ->
  exists pre e,
    l = pre ++ [e] /\ failure_of e = Some x /\
    forall e', In e' pre -> failure_of e' = None.
Proof.
  induction l as [|a l IH]; cbn [verdict]; [discriminate|].
  destruct (failure_of a) eqn:Fa.
  - destruct l; [|discriminate]. intros H. injection H as ->.
    exists [], a. cbn [app In]. tauto.
  - intros H. destruct (IH H) as (pre & e & -> & Fe & Hpre).
    exists (a :: pre), e. cbn [app In]. repeat split; auto.
    intros e' [<-|He']; auto.
Qed.

Lemma sell_all_tcg_verdict s :
  verdict (evs (sell_all_tcg WALLET s)) =
  Some (error_of (res (sell_all_tcg WALLET s))).
Proof.
  unfold sell_all_tcg. rewrite emit_then, tokens_get_TCG.
  run_sell; reflexivity.
Qed.

(** X10. [sell_all_tcg] has no handler of its own: if it returns, none
    of its calls failed; if it raises [x], the call that failed with [x] is
    the last thing it did, and no call before it failed. *)
Theorem sell_all_tcg_stops_at_its_first_failed_call :
  forall s : store W,
    (res (sell_all_tcg WALLET s) = Ok tt ->
     forall e, In e (evs (sell_all_tcg WALLET s)) -> failure_of e = None) /\
    (forall x, res (sell_all_tcg WALLET s) = Raise x ->
       exists pre e,
         evs (sell_all_tcg WALLET s) = pre ++ [e] /\
         failure_of e = Some x /\
         forall e', In e' pre -> failure_of e' = None).
Proof.
  intros s. pose proof (sell_all_tcg_verdict s) as V. split.
  - intros R. rewrite R in V. apply verdict_returned. exact V.
  - intros x R. rewrite R in V. apply verdict_raised. exact V.
Qed.

Lemma fetch_price_verdict symbol addr mon s :
  let o := fetch_price WALLET symbol addr mon s in
  verdict (evs o) = Some (error_of (res o)) /\
  (is_ok (res o) = false -> forallb (fun e => negb (is_print e)) (evs o) = true) /\
  (is_ok (res o) = true -> existsb is_print (evs o) = true).
Proof.
  cbv zeta. unfold fetch_price. run_tidy.
  repeat (first [ run_call
                | rewrite print_then
                | rewrite (of_result_returns _ _ _ _ (reciprocal_guarded _)) ];
          run_tidy);
    cbn [is_ok]; repeat split; intros; try discriminate; reflexivity.
Qed.

(** X8. A market-data read raises exactly when one of its three contract
    calls does: that call is then the last thing it did, no call before it
    failed, and no line was printed.  A read that returns made no failed
    call and printed its line. *)
Theorem fetch_price_stops_at_its_first_failed_call :
  forall (symbol : string) (addr : address) (mon : pyfloat) (s : store W),
    (forall mcap, res (fetch_price WALLET symbol addr mon s) = Ok mcap ->
       (forall e, In e (evs (fetch_price WALLET symbol addr mon s)) ->
                  failure_of e = None) /\
       existsb is_print (evs (fetch_price WALLET symbol addr mon s)) = true) /\
    (forall x, res (fetch_price WALLET symbol addr mon s) = Raise x ->
       (exists pre e,
          evs (fetch_price WALLET symbol addr mon s) = pre ++ [e] /\
          failure_of e = Some x /\
          forall e', In e' pre -> failure_of e' = None) /\
       forallb (fun e => negb (is_print e))
               (evs (fetch_price WALLET symbol addr mon s)) = true).
Proof.
  intros symbol addr mon s.
  destruct (fetch_price_verdict symbol addr mon s) as (V & Pn & Py).
  split.
  - intros mcap R. rewrite R in V, Py. split.
    + apply verdict_returned. exact V.
    + apply Py. reflexivity.
  - intros x R. rewrite R in V, Pn. split.
    + apply verdict_raised. exact V.
    + apply Pn. reflexivity.
Qed.

(** ** What the sell executor submits *)

(** X11. An approval that [sell_all_tcg] submits is an [approve] on the
    TCG contract, sent from the wallet with a gas limit of 100,000, for
    the nonzero balance read in that run and to the router the lens quoted
    for selling that balance. *)
Theorem approval_is_for_the_balance_and_the_quoted_router :
  forall (s : store W) (tx : transaction) (r : result hash)
         (token spender : address) (amount : Z),
    In (EvSend tx r) (evs (sell_all_tcg WALLET s)) ->
    tx_call_of tx = Approve token spender amount ->
    token = tcg_address /\
    amount <> 0 /\
    tx_from tx = WALLET /\
    tx_gas tx = 100000 /\
    In (EvBalanceOf tcg_address WALLET (Ok amount))
       (evs (sell_all_tcg WALLET s)) /\
    exists q : Z,
      In (EvGetAmountOut tcg_address amount false (Ok (spender, q)))
         (evs (sell_all_tcg WALLET s)).
Proof.
  intros s tx r token spender amount.
  unfold sell_all_tcg. rewrite emit_then, tokens_get_TCG.
  run_sell.
  all: cbn [In]; intros Hin Htx.
  all: repeat match goal with
         | H : _ \/ _ |- _ => destruct H as [H|H]
         | H : False |- _ => destruct H
         end.
  all: try discriminate Hin.
  all: injection Hin as <- <-; cbn [tx_call_of] in Htx; try discriminate Htx.
  all: injection Htx as <- <- <-.
  all: match goal with
       | E : lens_getAmountOut _ _ _ _ = (Ok ?q, _) |- _ =>
           destruct q as [rt q']; cbn [fst snd]
       end.
  all: cbn [tx_from tx_gas].
  all: repeat split; try assumption; try (cbn [In]; auto 12).
  all: exists q'; cbn [In]; auto 12.
Qed.

(** X12. A sell that [sell_all_tcg] submits spends what the approval of
    the same run allowed: the approval was sent and accepted before, on
    the TCG contract, to the same router, for the same nonzero amount and
    under the same chain id.  The sell names TCG as token and the wallet as
    recipient, is sent from the wallet and has a gas limit of 200,000. *)
Theorem sell_spends_what_the_approval_allowed :
  forall (s : store W) (tx : transaction) (r : result hash)
         (router : address) (amountIn amountOutMin : Z)
         (token to : address) (deadline : Z),
    In (EvSend tx r) (evs (sell_all_tcg WALLET s)) ->
    tx_call_of tx = Sell router amountIn amountOutMin token to deadline ->
    token = tcg_address /\
    to = WALLET /\
    amountIn <> 0 /\
    tx_from tx = WALLET /\
    tx_gas tx = 200000 /\
    exists (approve_tx : transaction) (h : hash),
      In (EvSend approve_tx (Ok h)) (evs (sell_all_tcg WALLET s)) /\
      tx_call_of approve_tx = Approve tcg_address router amountIn /\
      tx_chainId approve_tx = tx_chainId tx.
Proof.
  intros s tx r router amountIn amountOutMin token to deadline.
  unfold sell_all_tcg. rewrite emit_then, tokens_get_TCG.
  run_sell.
  all: cbn [In]; intros Hin Htx.
  all: repeat match goal with
         | H : _ \/ _ |- _ => destruct H as [H|H]
         | H : False |- _ => destruct H
         end.
  all: try discriminate Hin.
  all: injection Hin as <- <-; cbn [tx_call_of] in Htx; try discriminate Htx.
  all: injection Htx as <- <- <- <- <- <-.
  all: cbn [tx_from tx_gas tx_chainId].
  all: repeat split; try assumption.
  all: eexists; eexists; split; [cbn [In]; auto 12|].
  all: split; reflexivity.
Qed.

(** X13. [sell_all_tcg] returns normally in two ways only.  Either the
    balance was zero and all it did was read it and say so; or it submitted
    exactly two transactions, the approval and then the sell, and the last
    things it did were to send the sell, to get back from the wait for its
    receipt, and to print "SOLD". *)
Theorem sell_all_tcg_returns_only_after_the_sell_receipt :
  forall s : store W,
    res (sell_all_tcg WALLET s) = Ok tt ->
    evs (sell_all_tcg WALLET s) =
      [EvInvokeSell; EvBalanceOf tcg_address WALLET (Ok 0);
       EvPrint MsgBalanceZero] \/
    exists (pre : list event) (approve_tx sell_tx : transaction) (h : hash),
      evs (sell_all_tcg WALLET s) =
        pre ++ [EvSend sell_tx (Ok h); EvWait h (Ok tt); EvPrint (MsgSold h)] /\
      submitted (evs (sell_all_tcg WALLET s)) = [approve_tx; sell_tx] /\
      is_approve_tx approve_tx = true /\
      is_sell_tx sell_tx = true.
Proof.
  intros s.
  unfold sell_all_tcg. rewrite emit_then, tokens_get_TCG.
  run_sell.
  all: intros R; try discriminate R.
  - left. subst. reflexivity.
  - right. repeat match goal with u : unit |- _ => destruct u end.
    eexists [_; _; _; _; _; _; _; _; _; _; _; _; _]. do 3 eexists.
    split; [reflexivity|]. cbn [submitted app]. repeat split.
Qed.

(** ** The getter, its requests and its cache *)

(** X5. [get_mon_usd_price] makes no request while the cached entry is
    younger than the TTL.  Otherwise it asks Binance, and if Binance
    answers that is its only request and its result; it asks CoinGecko
    only after Binance failed, and then CoinGecko's answer or failure is
    its result.  Binance's exception is swallowed: it is never the
    result, and the getter prints nothing. *)
Theorem get_mon_usd_price_asks_coingecko_only_after_binance_failed :
  forall s : store W,
    cache_is_fresh s = true /\
    evs (get_mon_usd_price s) = [] \/
    cache_is_fresh s = false /\
    (exists p,
       evs (get_mon_usd_price s) = [EvBinance (Ok p)] /\
       res (get_mon_usd_price s) = Ok p) \/
    cache_is_fresh s = false /\
    (exists e r,
       evs (get_mon_usd_price s) = [EvBinance (Raise e); EvCoinGecko r] /\
       res (get_mon_usd_price s) = r).
Proof.
  intros s. destruct (cache_is_fresh s) eqn:F.
  - left. rewrite (get_mon_usd_price_fresh s F). auto.
  - right. destruct (fst (primary_reply s)) as [p|e] eqn:B.
    + left. destruct (get_mon_usd_price_primary s p F B) as (R & _ & E).
      eauto.
    + right. destruct (get_mon_usd_price_secondary s e F B) as (R & E & _).
      eauto.
Qed.

Lemma get_mon_usd_price_stamp s p :
  cache_is_fresh s = false ->
  res (get_mon_usd_price s) = Ok p ->
  mon_usd_cache (st (get_mon_usd_price s)) =
  (p, fst (time_time (reply_world s))).
Proof.
  intros F. unfold reply_world. unfold secondary_reply.
  run_getter F.
  destruct (http_binance_price (snd (time_time (world s)))) as [[q|e] w2] eqn:P;
    cbn [fst snd is_ok]; rewrite try_then.
  - rewrite (call_returns_at _ _ _ _ _ _ _ P).
    rewrite time_now_then, prepend_nil, set_cache_then.
    cbn [prepend ret res st evs mon_usd_cache world].
    intros R. injection R as <-. reflexivity.
  - rewrite (call_raises_at _ _ _ _ _ _ _ P). cbn [prepend res st evs].
    destruct (http_coingecko_price w2) as [[q|e2] w3] eqn:G; cbn [fst snd].
    + rewrite (call_returns_at _ _ _ _ _ _ _ G).
      rewrite time_now_then, prepend_nil, set_cache_then.
      cbn [prepend ret res st evs mon_usd_cache world].
      intros R. injection R as <-. reflexivity.
    + rewrite (call_raises_at _ _ _ _ _ _ _ G). cbn [prepend res].
      intros R. discriminate R.
Qed.

Lemma get_mon_usd_price_raise_keeps_cache s e :
  res (get_mon_usd_price s) = Raise e ->
  mon_usd_cache (st (get_mon_usd_price s)) = mon_usd_cache s.
Proof.
  destruct (cache_is_fresh s) eqn:F.
  - rewrite (get_mon_usd_price_fresh s F). discriminate.
  - destruct (fst (primary_reply s)) as [p|e1] eqn:B.
    + destruct (get_mon_usd_price_primary s p F B) as (R & _). rewrite R.
      discriminate.
    + destruct (get_mon_usd_price_secondary s e1 F B) as (R & _ & C).
      rewrite R. intros H. rewrite H in C. exact C.
Qed.

(** X6. [_mon_usd_cache] is written only by a fetch that succeeded: it
    then holds the fetched price and the clock as read after the reply of
    the source that gave it.  A call served from the cache and a call that
    raises leave it as it was. *)
Theorem get_mon_usd_price_writes_the_cache_only_on_a_successful_fetch :
  forall s : store W,
    (cache_is_fresh s = true ->
     mon_usd_cache (st (get_mon_usd_price s)) = mon_usd_cache s) /\
    (forall e, res (get_mon_usd_price s) = Raise e ->
     mon_usd_cache (st (get_mon_usd_price s)) = mon_usd_cache s) /\
    (cache_is_fresh s = false ->
     forall p, res (get_mon_usd_price s) = Ok p ->
     mon_usd_cache (st (get_mon_usd_price s)) =
       (p, fst (time_time (reply_world s)))).
Proof.
  intros s. split; [|split].
  - intros F. rewrite (get_mon_usd_price_fresh s F). reflexivity.
  - apply get_mon_usd_price_raise_keeps_cache.
  - intros F p R. apply get_mon_usd_price_stamp; assumption.
Qed.

(** X7. A price that a call fetched is what any later call returns, with
    no request, as long as the cache still holds that entry and the clock
    then reads less than [MON_PRICE_TTL] past its time stamp. *)
Theorem fetched_price_is_served_from_the_cache_within_the_ttl :
  forall (s s2 : store W) (p : pyfloat),
    cache_is_fresh s = false ->
    res (get_mon_usd_price s) = Ok p ->
    mon_usd_cache s2 = mon_usd_cache (st (get_mon_usd_price s)) ->
    cache_is_fresh s2 = true ->
    res (get_mon_usd_price s2) = Ok p /\
    evs (get_mon_usd_price s2) = [] /\
    mon_usd_cache (st (get_mon_usd_price s2)) = mon_usd_cache s2.
Proof.
  intros s s2 p F R C F2.
  rewrite (get_mon_usd_price_fresh s2 F2). cbn [res evs st mon_usd_cache].
  rewrite C, (get_mon_usd_price_stamp s p F R). auto.
Qed.

(** ** The price a cycle works with *)

Lemma refresh_price_eq l s :
  refresh_price l s =
  match res (get_mon_usd_price s) with
  | Ok p =>
      {| res := Ok p; st := st (get_mon_usd_price s);
         evs := evs (get_mon_usd_price s) |}
  | Raise e =>
      {| res := Ok (mon_usd l); st := st (get_mon_usd_price s);
         evs := evs (get_mon_usd_price s) ++
                [EvPrint (MsgPriceWarn (mon_usd l) e)] |}
  end.
Proof.
  unfold refresh_price. rewrite try_then.
  destruct (res (get_mon_usd_price s)).
  - unfold prepend, ret. cbn [res st evs]. rewrite app_nil_r. reflexivity.
  - rewrite print_then. reflexivity.
Qed.


(** ** When a cycle enters the sell executor *)

(** X2. A cycle enters [sell_all_tcg] if and only if TCG is unsold and
    its market cap was read and is at least [TCG_SELL_AT].  In every other
    cycle (TCG sold, its read failed, or its market cap below the
    threshold, whatever FIRE and MONA read) nothing is submitted, the only
    sleep is the poll interval and the flag is kept. *)
Theorem cycle_enters_the_sell_executor_iff_the_trigger_fires :
  forall (l : locals) (s : store W),
    ((1 <= invocations (evs (cycle WALLET l s)))%nat <->
     trigger_fires WALLET l s) /\
    (~ trigger_fires WALLET l s ->
     exists l',
       res (cycle WALLET l s) = Ok l' /\
       tcg_sold l' = tcg_sold l /\
       submitted (evs (cycle WALLET l s)) = [] /\
       skeleton (evs (cycle WALLET l s)) = [Slept POLL_INTERVAL]).
Proof.
  intros l s. split; [apply cycle_invokes_iff_trigger_fires|].
  intros NT.
  destruct (trigger_fires_or_not l s) as [T|N]; [contradiction|].
  destruct (cycle_untriggered l s N) as (l' & pre & R & Hf & E & Q).
  exists l'. split; [exact R|]. split; [exact Hf|].
  rewrite E, submitted_app, skeleton_app.
  rewrite (quiet_submitted _ (bystander_no_sell_activity _ Q)).
  rewrite (quiet_skeleton _ (bystander_no_ctrl _ Q)). auto.
Qed.

Lemma fetch_price_at_price_zero symbol addr mon s mcap :
  res (fetch_price WALLET symbol addr mon s) = Ok mcap ->
  is_zero mon = true -> float_ge_int mcap TCG_SELL_AT = false.
Proof.
  unfold fetch_price. run_tidy.
  repeat (first [ run_call
                | rewrite print_then
                | rewrite (of_result_returns _ _ _ _ (reciprocal_guarded _)) ];
          run_tidy);
    intros R Hm; try discriminate R.
  injection R as <-. apply float_mul_by_zero_below_trigger. exact Hm.
Qed.

(** X4. A cycle that works with a MON price of 0 cannot sell, whatever
    the contracts answer: no market cap it computes reaches the threshold
    (a product with the price 0 is zero, or NaN).  This is the state of a
    process that has not obtained a price yet ([mon_usd] starts at 0 and a
    failing getter leaves it there). *)
Theorem cycle_at_price_zero_never_sells :
  forall (l : locals) (s : store W),
    match res (get_mon_usd_price s) with
    | Ok p => is_zero p = true
    | Raise _ => is_zero (mon_usd l) = true
    end ->
    exists l',
      res (cycle WALLET l s) = Ok l' /\
      tcg_sold l' = tcg_sold l /\
      is_zero (mon_usd l') = true /\
      invocations (evs (cycle WALLET l s)) = O /\
      submitted (evs (cycle WALLET l s)) = [].
Proof.
  intros l s H0.
  assert (Hr : exists mon, res (refresh_price l s) = Ok mon /\
                           is_zero mon = true).
  { rewrite refresh_price_eq.
    destruct (res (get_mon_usd_price s)) as [p|e]; cbn [res]; eauto. }
  destruct Hr as (mon & Hmon & Hz).
  assert (N : forall mcap, res (tcg_snapshot WALLET l s) = Ok mcap ->
                           float_ge_int mcap TCG_SELL_AT = false).
  { intros mcap Hs. rewrite (tcg_snapshot_eq _ _ _ Hmon) in Hs.
    cbn [prepend res] in Hs.
    exact (fetch_price_at_price_zero _ _ _ _ _ Hs Hz). }
  destruct (cycle_untriggered l s (or_intror N)) as (l' & pre & R & Hf & E & Q).
  destruct (cycle_anatomy l s) as (mon' & b & _ & _ & Hmon' & _ & R' & _).
  rewrite Hmon in Hmon'. injection Hmon' as <-.
  rewrite R in R'. injection R' as ->.
  eexists. split; [exact R|]. cbn [tcg_sold mon_usd] in *.
  split; [exact Hf|]. split; [exact Hz|].
  rewrite E, invocations_app, submitted_app.
  rewrite (quiet_invocations _ (bystander_no_sell_activity _ Q)).
  rewrite (quiet_submitted _ (bystander_no_sell_activity _ Q)). auto.
Qed.

(** ** Start-up *)

(** X1. [main] can fail only before its loop.  Without a connection it
    raises at once, having made no call; if reading the block number
    raises, that exception ends it and nothing else was done.  Past these
    two steps it prints its two lines and polls, and no exception leaves
    the loop however many cycles run. *)
Theorem main_fails_only_at_startup :
  forall (n : nat) (s : store W),
    let up := w3_is_connected (world s) in
    let block := eth_block_number (snd up) in
    (fst up = false ->
     res (main WALLET n s) = Raise "Cannot connect to RPC"%string /\
     evs (main WALLET n s) = []) /\
    (fst up = true -> forall e, fst block = Raise e ->
     res (main WALLET n s) = Raise e /\
     evs (main WALLET n s) = [EvBlockNumber (Raise e)]) /\
    (fst up = true -> forall b, fst block = Ok b ->
     let s1 := {| world := snd block; mon_usd_cache := mon_usd_cache s |} in
     (exists l', res (main WALLET n s) = Ok l') /\
     evs (main WALLET n s) =
       [EvBlockNumber (Ok b); EvPrint (MsgConnected b);
        EvPrint (MsgWallet WALLET)] ++
       evs (poll WALLET n initial_locals s1)).
Proof.
  intros n s up block. unfold main. fold up.
  split; [|split].
  - intros Hc. rewrite Hc. auto.
  - intros Hc e He. rewrite Hc.
    destruct block as [r w'] eqn:B. cbn [fst] in He. subst r. unfold block in B.
    rewrite (call_raises_at _ _ _ _ _ _ _ B). auto.
  - intros Hc b Hb. rewrite Hc.
    destruct block as [r w'] eqn:B. cbn [fst snd] in *. subst r.
    unfold block in B.
    rewrite (call_returns_at _ _ _ _ _ _ _ B), !print_then.
    cbn [prepend res evs app]. split; [apply poll_total|reflexivity].
Qed.

(** ** The flag and the completed sell *)

Lemma pending_not_completed l :
  forallb pending l = true -> existsb sell_completed l = false.
Proof.
  induction l as [|e l IH]; [reflexivity|].
  cbn [forallb existsb]. intros H. apply andb_prop in H as [He Hl].
  unfold pending in He. destruct (sell_completed e); [discriminate He|auto].
Qed.

Lemma sell_all_tcg_completed s :
  existsb sell_completed (evs (sell_all_tcg WALLET s)) =
  is_ok (res (sell_all_tcg WALLET s)).
Proof.
  unfold sell_all_tcg. rewrite emit_then, tokens_get_TCG.
  run_sell; reflexivity.
Qed.

Lemma sell_attempts_completed attempts s :
  exists b,
    res (sell_attempts WALLET attempts false s) = Ok b /\
    existsb sell_completed (evs (sell_attempts WALLET attempts false s)) = b.
Proof.
  revert s. induction attempts as [|a rest IH]; intros s.
  - exists false. auto.
  - rewrite sell_attempts_step.
    pose proof (sell_all_tcg_completed s) as C.
    destruct (res (sell_all_tcg WALLET s)) as [u|e]; cbn [is_ok] in C.
    + exists true. auto.
    + destruct (a <? 3); cbn [prepend res evs].
      * destruct (IH (after_sleep 3 (st (sell_all_tcg WALLET s))))
          as (b & R & E).
        exists b. rewrite !existsb_app, C, E. auto.
      * destruct (IH (st (sell_all_tcg WALLET s))) as (b & R & E).
        exists b. rewrite !existsb_app, C, E. auto.
Qed.

Lemma cycle_completed l s :
  tcg_sold l = false ->
  exists l',
    res (cycle WALLET l s) = Ok l' /\
    existsb sell_completed (evs (cycle WALLET l s)) = tcg_sold l'.
Proof.
  intros Hs.
  destruct (trigger_fires_or_not l s) as [(_ & mcap & Hm & Hc)|N].
  - destruct (cycle_triggered l s mcap Hs Hm Hc)
      as (mon & b & f & m & Hb & R & E & Qf & Qm).
    cbv zeta in Hb, E.
    destruct (sell_attempts_completed [1; 2; 3] (st (tcg_snapshot WALLET l s)))
      as (b' & Hb' & C).
    rewrite Hb' in Hb. injection Hb as ->.
    eexists. split; [exact R|]. cbn [tcg_sold]. rewrite E.
    rewrite existsb_app.
    rewrite (pending_not_completed _
               (bystander_pending _ (tcg_snapshot_quiet l s))).
    cbn [existsb sell_completed orb]. rewrite !existsb_app, C.
    rewrite (pending_not_completed _ (bystander_pending _ Qf)).
    rewrite (pending_not_completed _ (bystander_pending _ Qm)).
    destruct b; reflexivity.
  - destruct (cycle_untriggered l s N) as (l' & pre & R & Hf & E & Q).
    exists l'. split; [exact R|]. rewrite Hf, Hs, E, existsb_app.
    rewrite (pending_not_completed _ (bystander_pending _ Q)). reflexivity.
Qed.

Lemma poll_completed n l s :
  tcg_sold l = false ->
  exists l',
    res (poll WALLET n l s) = Ok l' /\
    existsb sell_completed (evs (poll WALLET n l s)) = tcg_sold l'.
Proof.
  revert l s. induction n as [|n IH]; intros l s Hs.
  - exists l. cbn [poll ret res evs existsb]. auto.
  - destruct (cycle_completed l s Hs) as (l1 & R1 & C1).
    rewrite (poll_step _ _ _ _ R1). cbn [prepend res evs].
    rewrite existsb_app, C1.
    destruct (tcg_sold l1) eqn:S1.
    + destruct (poll_sold n l1 (st (cycle WALLET l s)) S1) as (l' & R & S & _).
      exists l'. rewrite S. auto.
    + destruct (IH l1 (st (cycle WALLET l s)) S1) as (l' & R & C).
      exists l'. rewrite C. auto.
Qed.

(** X14. After any number of cycles from the start of the loop,
    [tcg_sold] is set if and only if some run of [sell_all_tcg] came to its
    last line ("SOLD", or "nothing to sell"): the flag is never set without
    a completed run and never left clear after one. *)
Theorem tcg_sold_iff_a_sell_run_completed :
  forall (n : nat) (s : store W) (l' : locals),
    res (poll WALLET n initial_locals s) = Ok l' ->
    (tcg_sold l' = true <->
     exists e, In e (evs (poll WALLET n initial_locals s)) /\
               sell_completed e = true).
Proof.
  intros n s l' R.
  destruct (poll_completed n initial_locals s eq_refl) as (l1 & R1 & C).
  rewrite R in R1. injection R1 as <-.
  rewrite <- C. apply existsb_exists.
Qed.

(** ** Runs in which the trigger never fires *)

Lemma poll_snoc n l s l' :
  res (poll WALLET n l s) = Ok l' ->
  exists l'',
    res (cycle WALLET l' (st (poll WALLET n l s))) = Ok l'' /\
    res (poll WALLET (S n) l s) = Ok l'' /\
    evs (poll WALLET (S n) l s) =
      evs (poll WALLET n l s) ++
      evs (cycle WALLET l' (st (poll WALLET n l s))).
Proof.
  intros R. destruct (cycle_total l' (st (poll WALLET n l s))) as [l'' R'].
  exists l''. split; [exact R'|].
  replace (S n) with (n + 1)%nat by lia.
  rewrite (poll_plus _ _ _ _ _ R), (poll_step _ _ _ _ R').
  cbn [prepend poll ret res evs]. rewrite app_nil_r. auto.
Qed.

(** X15. As long as the trigger fires in none of the first [n] cycles of
    a run, the run never enters [sell_all_tcg], submits no transaction and
    keeps the flag it started with. *)
Theorem no_transaction_before_the_trigger_fires :
  forall (n : nat) (l : locals) (s : store W),
    (forall k, (k < n)%nat ->
       ~ trigger_fires WALLET (fst (after_cycles WALLET k l s))
                              (snd (after_cycles WALLET k l s))) ->
    invocations (evs (poll WALLET n l s)) = O /\
    submitted (evs (poll WALLET n l s)) = [] /\
    tcg_sold (fst (after_cycles WALLET n l s)) = tcg_sold l.
Proof.
  intros n l s. induction n as [|n IH]; intros H.
  - cbn. auto.
  - destruct IH as (I & S & F); [intros k Hk; apply H; lia|].
    specialize (H n (Nat.lt_succ_diag_r n)).
    unfold after_cycles in *. cbv zeta in *. cbn [fst snd] in *.
    destruct (poll_total n l s) as [l' R]. rewrite R in *.
    destruct (poll_snoc n l s l' R) as (l'' & Rc & Rs & E).
    rewrite Rs, E, invocations_app, submitted_app, I, S.
    destruct (trigger_fires_or_not l' (st (poll WALLET n l s))) as [T|N];
      [contradiction|].
    destruct (cycle_untriggered _ _ N) as (l1 & pre & R1 & Hf & E1 & Q).
    rewrite Rc in R1. injection R1 as <-.
    rewrite E1, invocations_app, submitted_app.
    rewrite (quiet_invocations _ (bystander_no_sell_activity _ Q)).
    rewrite (quiet_submitted _ (bystander_no_sell_activity _ Q)).
    rewrite Hf, F. auto.
Qed.

End Facts.

(** * The claims on scripted runs *)

Ltac find_in_list := repeat first [left; reflexivity | right].

(** The spec's retry scenario: two failed attempts, then a sale. *)
Example retry_scenario :
  res (cycle wallet initial_locals two_failures_then_sale) =
    Ok {| tcg_sold := true; mon_usd := usd_125_40 |} /\
  skeleton (evs (cycle wallet initial_locals two_failures_then_sale)) =
    [Invoke; Failed 1; Slept 3; Invoke; Failed 2; Slept 3; Invoke; Slept 7] /\
  map tx_nonce
      (submitted (evs (cycle wallet initial_locals two_failures_then_sale))) =
    [7; 8].
Proof. vm_compute. auto. Qed.

(** Three failed attempts, then the whole sequence again one cycle later. *)
Example retry_next_cycle_scenario :
  skeleton (evs (poll wallet 2 initial_locals three_failures_then_retry)) =
    [Invoke; Failed 1; Slept 3; Invoke; Failed 2; Slept 3; Invoke; Failed 3;
     Slept 7; Invoke; Slept 7].
Proof. vm_compute. reflexivity. Qed.

(** The arithmetic of the market cap against the doubles of the machine:
    the reference price 125.40, the scenario of the spec, a product that
    is rounded (1000 tokens at 3 per MON and 125.50 USD give
    41833.333333333328, the fourth line in hexadecimal), and two reads
    next to the threshold: one token short of 900,000 tokens at 1 USD,
    which rounds up to the threshold, and 44,100,000 tokens at 49 per MON,
    which rounds below it. *)
Example market_cap_on_machine_doubles :
  usd_125_40 = Prim2SF (1254 / 10)%float /\
  market_cap_of (units 1000) (units 1000000) usd_125_40 =
    Prim2SF (market_cap_binary64 (1 / 1000) 1000000 (1254 / 10)) /\
  market_cap_of (units 1000) (units 1000000) usd_125_40 =
    Prim2SF 125400%float /\
  market_cap_of (units 3) (units 1000) (float_of_decimal (1255 # 10)) =
    Prim2SF (market_cap_binary64 (1 / 3) 1000 125.5) /\
  market_cap_of (units 3) (units 1000) (float_of_decimal (1255 # 10)) =
    Prim2SF 0x1.46d2aaaaaaaaap+15%float /\
  market_cap_of (units 1) (units 900000 - 1) (float_of_int 1) =
    Prim2SF 900000%float /\
  float_ge_int
    (market_cap_of (units 1) (units 900000 - 1) (float_of_int 1))
    TCG_SELL_AT = true /\
  market_cap_of (units 49) (units 44100000) (float_of_int 1) =
    Prim2SF (market_cap_binary64 (1 / 49) 44100000 1) /\
  float_ge_int
    (market_cap_of (units 49) (units 44100000) (float_of_int 1))
    TCG_SELL_AT = false.
Proof. vm_compute. repeat split; reflexivity. Qed.

Lemma sold_token_is_never_sold_again_witness :
  res (poll wallet 1 initial_locals sale_then_high_cap) = Ok sold_at_125_40 /\
  tcg_sold sold_at_125_40 = true /\
  invocations
    (evs (poll wallet 1 sold_at_125_40
            (st (poll wallet 1 initial_locals sale_then_high_cap)))) = O /\
  submitted
    (evs (poll wallet 1 sold_at_125_40
            (st (poll wallet 1 initial_locals sale_then_high_cap)))) = [].
Proof.
  assert (H1 : res (poll wallet 1 initial_locals sale_then_high_cap) =
               Ok sold_at_125_40) by (vm_compute; reflexivity).
  assert (H2 : tcg_sold sold_at_125_40 = true) by reflexivity.
  destruct (sold_token_is_never_sold_again wallet 1 1 sale_then_high_cap
              sold_at_125_40 H1 H2) as (_ & Hi & Hs & _).
  auto.
Defined.

Lemma get_mon_usd_price_raises_witness :
  cache_is_fresh feeds_down_cold = false /\
  is_ok (fst (primary_reply feeds_down_cold)) = false /\
  is_ok (fst (secondary_reply feeds_down_cold)) = false /\
  exists e, res (get_mon_usd_price feeds_down_cold) = Raise e.
Proof.
  assert (H : cache_is_fresh feeds_down_cold = false /\
              is_ok (fst (primary_reply feeds_down_cold)) = false /\
              is_ok (fst (secondary_reply feeds_down_cold)) = false)
    by (vm_compute; auto).
  pose proof (proj2 (proj1
    (get_mon_usd_price_raises_iff_stale_and_both_sources_fail
       feeds_down_cold)) H) as R.
  tauto.
Defined.

(** C2 as the spec states it fails: the cache was populated by a call that
    returned 125.40; 61 seconds later both sources are down and the call
    raises instead of returning the cached 125.40. *)
Lemma get_mon_usd_price_raises_on_a_populated_cache :
  res (get_mon_usd_price feeds_go_down) = Ok usd_125_40 /\
  mon_usd_cache (after_sleep 61 (st (get_mon_usd_price feeds_go_down))) =
    (usd_125_40, (1000 # 1)%Q) /\
  res (get_mon_usd_price
         (after_sleep 61 (st (get_mon_usd_price feeds_go_down)))) =
    Raise "coingecko: 429"%string.
Proof. vm_compute. auto. Qed.

Lemma triggered_cycle_makes_at_most_three_attempts_witness :
  tcg_sold initial_locals = false /\
  res (tcg_snapshot wallet initial_locals two_failures_then_sale) =
    Ok (first_tcg_cap two_failures_then_sale) /\
  float_ge_int (first_tcg_cap two_failures_then_sale) TCG_SELL_AT = true /\
  exists l',
    res (cycle wallet initial_locals two_failures_then_sale) = Ok l' /\
    tcg_sold l' = true /\
    retry_outcome (tcg_sold l')
      (skeleton (evs (cycle wallet initial_locals two_failures_then_sale))) /\
    (1 <= invocations
            (evs (cycle wallet initial_locals two_failures_then_sale)) <= 3)%nat.
Proof.
  assert (H1 : tcg_sold initial_locals = false) by reflexivity.
  assert (H2 : res (tcg_snapshot wallet initial_locals two_failures_then_sale) =
               Ok (first_tcg_cap two_failures_then_sale))
    by (vm_compute; reflexivity).
  assert (H3 : float_ge_int (first_tcg_cap two_failures_then_sale) TCG_SELL_AT = true)
    by (vm_compute; reflexivity).
  assert (P : snd (retry_policy wallet
                     (st (tcg_snapshot wallet initial_locals
                            two_failures_then_sale))) = true)
    by (vm_compute; reflexivity).
  destruct (triggered_cycle_makes_at_most_three_attempts
              wallet initial_locals two_failures_then_sale
              (first_tcg_cap two_failures_then_sale) H1 H2 H3)
    as (l' & R & F & _ & Sk & N & _).
  rewrite P in F.
  split; [exact H1|]. split; [exact H2|]. split; [exact H3|].
  exists l'. auto.
Defined.

Lemma sell_is_sent_after_the_approval_receipt_witness :
  In (EvSend plain_sale_tx (Ok 1002)) (evs (sell_all_tcg wallet plain_sale)) /\
  is_sell_tx plain_sale_tx = true /\
  exists (pre post : list event) (approve_tx : transaction) (h : hash)
         (n0 g0 n g balance amount_out_min : Z),
    evs (sell_all_tcg wallet plain_sale) =
      pre ++
      [ EvTxCount wallet (Ok n0); EvGasPrice (Ok g0);
        EvSend approve_tx (Ok h);
        EvWait h (Ok tt);
        EvPrint (MsgApproved h);
        EvPrint (MsgSelling balance amount_out_min);
        EvTxCount wallet (Ok n); EvGasPrice (Ok g);
        EvSend plain_sale_tx (Ok 1002) ] ++ post /\
    tx_nonce approve_tx = n0 /\
    tx_nonce plain_sale_tx = n.
Proof.
  assert (H1 : In (EvSend plain_sale_tx (Ok 1002))
                  (evs (sell_all_tcg wallet plain_sale)))
    by (vm_compute; find_in_list).
  assert (H2 : is_sell_tx plain_sale_tx = true) by reflexivity.
  destruct (sell_is_sent_after_the_approval_receipt_with_a_fresh_nonce
              wallet plain_sale plain_sale_tx (Ok 1002) H1 H2)
    as (pre & post & a & h & n0 & g0 & n & g & b & m & E & _ & Ha & Hn & _).
  split; [exact H1|]. split; [exact H2|].
  exists pre, post, a, h, n0, g0, n, g, b, m. auto.
Defined.

Lemma sell_min_out_is_floor_of_95_percent_witness :
  In plain_sale_tx (submitted (evs (sell_all_tcg wallet plain_sale))) /\
  exists q : Z,
    In (EvBalanceOf tcg_address wallet (Ok (units 5)))
       (evs (sell_all_tcg wallet plain_sale)) /\
    In (EvGetAmountOut tcg_address (units 5) false (Ok (router_a, q)))
       (evs (sell_all_tcg wallet plain_sale)) /\
    738 = q * 95 / 100 /\
    100 * 738 <= q * 95 < 100 * 738 + 100.
Proof.
  assert (H1 : In plain_sale_tx
                  (submitted (evs (sell_all_tcg wallet plain_sale))))
    by (vm_compute; find_in_list).
  split; [exact H1|].
  apply (sell_min_out_is_floor_of_95_percent wallet plain_sale plain_sale_tx
           router_a (units 5) 738 tcg_address wallet 2300 H1).
  reflexivity.
Defined.

Lemma sell_all_tcg_zero_balance_witness :
  erc20_balanceOf tcg_address wallet (world empty_wallet) =
    (Ok 0, {| clock := 2000 # 1; replies := [] |}) /\
  res (sell_all_tcg wallet empty_wallet) = Ok tt /\
  submitted (evs (sell_all_tcg wallet empty_wallet)) = [].
Proof.
  assert (H : erc20_balanceOf tcg_address wallet (world empty_wallet) =
              (Ok 0, {| clock := 2000 # 1; replies := [] |})) by reflexivity.
  destruct (sell_all_tcg_zero_balance_is_a_no_op wallet empty_wallet _ H)
    as (R & _ & S).
  auto.
Defined.


Lemma zero_quote_witness :
  0 <= units 1000 < 2 ^ 256 /\
  0 <= units 5 < 2 ^ 256 /\
  is_finite usd_125_40 = true /\
  exists market_cap_usd wallet_balance_usd : pyfloat,
    res (fetch_price wallet "TCG" tcg_address usd_125_40 zero_quote_read) =
      Ok market_cap_usd /\
    In (EvPrint (MsgToken "TCG" market_cap_usd wallet_balance_usd))
       (evs (fetch_price wallet "TCG" tcg_address usd_125_40 zero_quote_read)) /\
    is_zero market_cap_usd = true /\
    is_zero wallet_balance_usd = true.
Proof.
  assert (Rs : 0 <= units 1000 < 2 ^ 256) by (vm_compute; split; congruence).
  assert (Rb : 0 <= units 5 < 2 ^ 256) by (vm_compute; split; congruence).
  assert (Fm : is_finite usd_125_40 = true) by reflexivity.
  pose proof (zero_quote_gives_zero_market_cap_and_owned_value
                wallet zero_quote_read "TCG"%string tcg_address usd_125_40
                router_a (units 1000) (units 5)
                {| clock := 2000 # 1;
                   replies := [RNum (Ok (units 1000)); RNum (Ok (units 5))] |}
                {| clock := 2000 # 1; replies := [RNum (Ok (units 5))] |}
                {| clock := 2000 # 1; replies := [] |}
                eq_refl eq_refl eq_refl Rs Rb) as T.
  destruct T as (_ & _ & cap & owned & R & E & Fin & _).
  destruct (Fin Fm) as [Zc Zo].
  split; [exact Rs|]. split; [exact Rb|]. split; [exact Fm|].
  exists cap, owned. split; [exact R|]. split; [|auto].
  rewrite E. cbn [In]. auto.
Defined.

(** C8 as the spec states it fails when the reference price is not
    finite: a feed that answers ["inf"] gives a cycle in which the zero
    quote of TCG makes market cap and owned value NaN, not 0. *)
Lemma zero_quote_at_an_infinite_price_gives_nan :
  res (get_mon_usd_price zero_quote_infinite_price) =
    Ok (S754_infinity false) /\
  res (tcg_snapshot wallet initial_locals zero_quote_infinite_price) =
    Ok S754_nan /\
  is_zero S754_nan = false /\
  In (EvPrint (MsgToken "TCG" S754_nan S754_nan))
     (evs (cycle wallet initial_locals zero_quote_infinite_price)).
Proof. vm_compute. repeat split; try reflexivity. find_in_list. Qed.

Lemma failed_read_skips_only_that_token_witness :
  res (fetch_price wallet "TCG" tcg_address usd_125_40 tcg_read_fails) =
    Raise "lens unreachable"%string /\
  res (per_token wallet "TCG" tcg_address usd_125_40 false tcg_read_fails) =
    Ok false /\
  evs (per_token wallet "TCG" tcg_address usd_125_40 false tcg_read_fails) =
    evs (fetch_price wallet "TCG" tcg_address usd_125_40 tcg_read_fails) ++
    [EvPrint (MsgTokenError "TCG" "lens unreachable"%string)] /\
  snapshot_reads (evs (cycle wallet initial_locals tcg_read_fails)) =
    [tcg_address; fire_address; mona_address] /\
  (exists l', res (cycle wallet initial_locals tcg_read_fails) = Ok l') /\
  invocations (evs (cycle wallet initial_locals tcg_read_fails)) = O.
Proof.
  assert (H : res (fetch_price wallet "TCG" tcg_address usd_125_40
                     tcg_read_fails) = Raise "lens unreachable"%string)
    by reflexivity.
  destruct (failed_read_skips_only_that_token wallet 1 initial_locals
              tcg_read_fails) as (Tok & _ & _ & Inv & Tot & Reads & _).
  destruct (Tok "TCG"%string tcg_address usd_125_40 false tcg_read_fails _ H)
    as (R & E & _).
  assert (NT : ~ trigger_fires wallet initial_locals tcg_read_fails).
  { intros (_ & mcap & Rm & _). vm_compute in Rm. discriminate Rm. }
  split; [exact H|]. split; [exact R|]. split; [exact E|].
  split; [exact Reads|]. split; [exact Tot|].
  destruct (invocations (evs (cycle wallet initial_locals tcg_read_fails)));
    [reflexivity|].
  exfalso. apply NT, Inv. apply le_n_S, Nat.le_0_l.
Defined.

Lemma zero_balance_at_trigger_witness :
  res (tcg_snapshot wallet initial_locals trigger_on_empty_wallet) =
    Ok (first_tcg_cap trigger_on_empty_wallet) /\
  float_ge_int (first_tcg_cap trigger_on_empty_wallet) TCG_SELL_AT = true /\
  exists l',
    res (cycle wallet initial_locals trigger_on_empty_wallet) = Ok l' /\
    tcg_sold l' = true /\
    submitted (evs (cycle wallet initial_locals trigger_on_empty_wallet)) = [] /\
    invocations
      (evs (poll wallet 1 l'
              (st (cycle wallet initial_locals trigger_on_empty_wallet)))) = O.
Proof.
  assert (H1 : tcg_sold initial_locals = false) by reflexivity.
  assert (H2 : res (tcg_snapshot wallet initial_locals trigger_on_empty_wallet) =
               Ok (first_tcg_cap trigger_on_empty_wallet))
    by (vm_compute; reflexivity).
  assert (H3 : float_ge_int (first_tcg_cap trigger_on_empty_wallet) TCG_SELL_AT = true)
    by (vm_compute; reflexivity).
  assert (H4 : erc20_balanceOf tcg_address wallet
                 (world (st (tcg_snapshot wallet initial_locals
                               trigger_on_empty_wallet))) =
               (Ok 0, {| clock := 2000 # 1;
                         replies := others_ok ++ tcg_above ++ others_ok |}))
    by (vm_compute; reflexivity).
  destruct (zero_balance_at_trigger_marks_the_token_sold
              wallet initial_locals trigger_on_empty_wallet
              (first_tcg_cap trigger_on_empty_wallet) _ H1 H2 H3 H4)
    as (l' & R & Sold & _ & Sub & Later).
  split; [exact H2|]. split; [exact H3|].
  exists l'. destruct (Later 1%nat) as [Hi _]. auto.
Defined.

(** * The further facts on scripted runs *)

Lemma main_fails_only_at_startup_witness :
  fst (w3_is_connected (world disconnected)) = false /\
  res (main wallet 3 disconnected) = Raise "Cannot connect to RPC"%string /\
  evs (main wallet 3 disconnected) = [].
Proof.
  assert (H : fst (w3_is_connected (world disconnected)) = false)
    by reflexivity.
  destruct (main_fails_only_at_startup wallet 3 disconnected) as (D & _).
  destruct (D H) as [R E]. auto.
Defined.

Lemma cycle_without_trigger_witness :
  ~ trigger_fires wallet initial_locals tcg_read_fails /\
  exists l',
    res (cycle wallet initial_locals tcg_read_fails) = Ok l' /\
    tcg_sold l' = false /\
    submitted (evs (cycle wallet initial_locals tcg_read_fails)) = [] /\
    skeleton (evs (cycle wallet initial_locals tcg_read_fails)) = [Slept 7].
Proof.
  assert (H : ~ trigger_fires wallet initial_locals tcg_read_fails).
  { intros (_ & mcap & R & _). vm_compute in R. discriminate R. }
  destruct (cycle_enters_the_sell_executor_iff_the_trigger_fires
              wallet initial_locals tcg_read_fails) as (_ & N).
  destruct (N H) as (l' & R & F & S & K).
  split; [exact H|]. exists l'. auto.
Defined.

Lemma cycle_at_price_zero_witness :
  res (get_mon_usd_price no_price_yet) = Raise "coingecko: 429"%string /\
  is_zero (mon_usd initial_locals) = true /\
  exists l',
    res (cycle wallet initial_locals no_price_yet) = Ok l' /\
    tcg_sold l' = false /\
    invocations (evs (cycle wallet initial_locals no_price_yet)) = O.
Proof.
  assert (R : res (get_mon_usd_price no_price_yet) =
              Raise "coingecko: 429"%string) by (vm_compute; reflexivity).
  assert (Z0 : is_zero (mon_usd initial_locals) = true) by reflexivity.
  destruct (cycle_at_price_zero_never_sells wallet initial_locals
              no_price_yet) as (l' & Rc & F & _ & I & _).
  { rewrite R. exact Z0. }
  split; [exact R|]. split; [exact Z0|]. exists l'. auto.
Defined.

Lemma cache_written_on_fetch_witness :
  cache_is_fresh feeds_go_down = false /\
  res (get_mon_usd_price feeds_go_down) = Ok usd_125_40 /\
  mon_usd_cache (st (get_mon_usd_price feeds_go_down)) =
    (usd_125_40, fst (time_time (reply_world feeds_go_down))).
Proof.
  assert (F : cache_is_fresh feeds_go_down = false) by reflexivity.
  assert (R : res (get_mon_usd_price feeds_go_down) = Ok usd_125_40)
    by (vm_compute; reflexivity).
  destruct (get_mon_usd_price_writes_the_cache_only_on_a_successful_fetch
              feeds_go_down) as (_ & _ & Wr).
  pose proof (Wr F _ R) as C. auto.
Defined.

Lemma fetched_price_is_served_from_the_cache_witness :
  cache_is_fresh
    (after_sleep 30 (st (get_mon_usd_price feeds_go_down))) = true /\
  res (get_mon_usd_price
         (after_sleep 30 (st (get_mon_usd_price feeds_go_down)))) =
    Ok usd_125_40 /\
  evs (get_mon_usd_price
         (after_sleep 30 (st (get_mon_usd_price feeds_go_down)))) = [].
Proof.
  assert (F : cache_is_fresh feeds_go_down = false) by reflexivity.
  assert (R : res (get_mon_usd_price feeds_go_down) = Ok usd_125_40)
    by (vm_compute; reflexivity).
  assert (C : mon_usd_cache
                (after_sleep 30 (st (get_mon_usd_price feeds_go_down))) =
              mon_usd_cache (st (get_mon_usd_price feeds_go_down)))
    by reflexivity.
  assert (F2 : cache_is_fresh
                 (after_sleep 30 (st (get_mon_usd_price feeds_go_down))) =
               true) by (vm_compute; reflexivity).
  destruct (fetched_price_is_served_from_the_cache_within_the_ttl
              feeds_go_down _ _ F R C F2) as (R2 & E2 & _).
  auto.
Defined.

Lemma fetch_price_stops_witness :
  res (fetch_price wallet "TCG" tcg_address usd_125_40 tcg_read_fails) =
    Raise "lens unreachable"%string /\
  forallb (fun e => negb (is_print e))
    (evs (fetch_price wallet "TCG" tcg_address usd_125_40 tcg_read_fails)) =
    true.
Proof.
  assert (R : res (fetch_price wallet "TCG" tcg_address usd_125_40
                     tcg_read_fails) = Raise "lens unreachable"%string)
    by reflexivity.
  destruct (fetch_price_stops_at_its_first_failed_call
              wallet "TCG"%string tcg_address usd_125_40 tcg_read_fails)
    as (_ & F).
  destruct (F _ R) as (_ & P). auto.
Defined.


Lemma sell_all_tcg_stops_witness :
  res (sell_all_tcg wallet quote_fails) = Raise "execution reverted"%string /\
  exists pre e,
    evs (sell_all_tcg wallet quote_fails) = pre ++ [e] /\
    failure_of e = Some "execution reverted"%string /\
    submitted (evs (sell_all_tcg wallet quote_fails)) = [].
Proof.
  assert (R : res (sell_all_tcg wallet quote_fails) =
              Raise "execution reverted"%string) by reflexivity.
  destruct (sell_all_tcg_stops_at_its_first_failed_call wallet quote_fails)
    as (_ & F).
  destruct (F _ R) as (pre & e & E & Fe & _).
  split; [exact R|]. exists pre, e. repeat split; auto.
Defined.

Lemma approval_witness :
  In (EvSend plain_approve_tx (Ok 1001)) (evs (sell_all_tcg wallet plain_sale)) /\
  units 5 <> 0 /\
  exists q : Z,
    In (EvGetAmountOut tcg_address (units 5) false (Ok (router_a, q)))
       (evs (sell_all_tcg wallet plain_sale)).
Proof.
  assert (H : In (EvSend plain_approve_tx (Ok 1001))
                 (evs (sell_all_tcg wallet plain_sale)))
    by (vm_compute; find_in_list).
  assert (C : tx_call_of plain_approve_tx =
              Approve tcg_address router_a (units 5)) by reflexivity.
  destruct (approval_is_for_the_balance_and_the_quoted_router
              wallet plain_sale plain_approve_tx (Ok 1001)
              tcg_address router_a (units 5) H C)
    as (_ & Nz & _ & _ & _ & Q).
  auto.
Defined.

Lemma sell_spends_what_the_approval_allowed_witness :
  In (EvSend plain_sale_tx (Ok 1002)) (evs (sell_all_tcg wallet plain_sale)) /\
  exists (approve_tx : transaction) (h : hash),
    In (EvSend approve_tx (Ok h)) (evs (sell_all_tcg wallet plain_sale)) /\
    tx_call_of approve_tx = Approve tcg_address router_a (units 5) /\
    tx_chainId approve_tx = tx_chainId plain_sale_tx.
Proof.
  assert (H : In (EvSend plain_sale_tx (Ok 1002))
                 (evs (sell_all_tcg wallet plain_sale)))
    by (vm_compute; find_in_list).
  assert (C : tx_call_of plain_sale_tx =
              Sell router_a (units 5) 738 tcg_address wallet 2300)
    by reflexivity.
  destruct (sell_spends_what_the_approval_allowed
              wallet plain_sale plain_sale_tx (Ok 1002)
              router_a (units 5) 738 tcg_address wallet 2300 H C)
    as (_ & _ & _ & _ & _ & A).
  auto.
Defined.

Lemma sell_all_tcg_returns_witness :
  res (sell_all_tcg wallet plain_sale) = Ok tt /\
  (evs (sell_all_tcg wallet plain_sale) =
     [EvInvokeSell; EvBalanceOf tcg_address wallet (Ok 0);
      EvPrint MsgBalanceZero] \/
   exists (pre : list event) (approve_tx sell_tx : transaction) (h : hash),
     evs (sell_all_tcg wallet plain_sale) =
       pre ++ [EvSend sell_tx (Ok h); EvWait h (Ok tt); EvPrint (MsgSold h)] /\
     submitted (evs (sell_all_tcg wallet plain_sale)) = [approve_tx; sell_tx] /\
     is_approve_tx approve_tx = true /\
     is_sell_tx sell_tx = true).
Proof.
  assert (R : res (sell_all_tcg wallet plain_sale) = Ok tt)
    by (vm_compute; reflexivity).
  split; [exact R|].
  exact (sell_all_tcg_returns_only_after_the_sell_receipt wallet plain_sale R).
Defined.

Lemma tcg_sold_iff_completed_witness :
  res (poll wallet 2 initial_locals sale_then_high_cap) = Ok sold_at_125_40 /\
  exists e,
    In e (evs (poll wallet 2 initial_locals sale_then_high_cap)) /\
    sell_completed e = true.
Proof.
  assert (R : res (poll wallet 2 initial_locals sale_then_high_cap) =
              Ok sold_at_125_40) by (vm_compute; reflexivity).
  split; [exact R|].
  apply (proj1 (tcg_sold_iff_a_sell_run_completed
                  wallet 2 sale_then_high_cap sold_at_125_40 R)).
  reflexivity.
Defined.

Lemma no_transaction_before_the_trigger_witness :
  (forall k, (k < 2)%nat ->
     ~ trigger_fires wallet
         (fst (after_cycles wallet k initial_locals two_calm_cycles))
         (snd (after_cycles wallet k initial_locals two_calm_cycles))) /\
  invocations (evs (poll wallet 2 initial_locals two_calm_cycles)) = O /\
  submitted (evs (poll wallet 2 initial_locals two_calm_cycles)) = [].
Proof.
  assert (H : forall k, (k < 2)%nat ->
     ~ trigger_fires wallet
         (fst (after_cycles wallet k initial_locals two_calm_cycles))
         (snd (after_cycles wallet k initial_locals two_calm_cycles))).
  { intros k Hk (_ & mcap & R & C).
    destruct k as [|[|k]]; [| |lia];
      vm_compute in R; injection R as <-; vm_compute in C; discriminate C. }
  destruct (no_transaction_before_the_trigger_fires
              wallet 2 initial_locals two_calm_cycles H) as (I & S & _).
  auto.
Defined.
